(** * vite-plugin-bookemoji: the virtual-module plugin, embedded and verified

    The plugin (one TypeScript file) keeps a little closure state, resolves
    an optional [svelte.config.js], globs for story files and synthesizes the
    source text of the module [virtual:bookemoji].  This development embeds

    - the JavaScript string operations the plugin calls ([replaceAll],
      [includes], [join]) and Node's [path.posix.normalize];
    - the glob normalizer of the [load] hook;
    - the text generator [createExportStatements], character for character;
    - a reader for the generated text and the run-time behaviour of the
      generated [loadStories];
    - the hooks [configResolved], [resolveId] and [load] over the closure
      state, with the console as part of the state, and the [printUrls]
      that [configureServer] installs.

    and proves the properties claimed about them. *)

From Stdlib Require Import List Ascii String ZArith Bool Lia Arith Permutation.
From Stdlib Require Import Decimal DecimalString.
Import ListNotations.

Local Open Scope string_scope.
Local Open Scope Z_scope.

(* ================================================================== *)
(** * JavaScript strings *)
(* ================================================================== *)

(** A JavaScript string is modelled as a Rocq [string]; every character the
    plugin inspects or inserts is an ASCII one. *)

Module JsString.

Definition dquote : ascii := "034"%char.
Definition squote : ascii := "039"%char.
Definition backslash : ascii := "092"%char.
Definition LF : ascii := "010"%char.
Definition CR : ascii := "013"%char.
Definition NUL : ascii := "000"%char.

(** One-character strings used when assembling text. *)
Definition dq : string := String dquote "".
Definition nl : string := String LF "".

Definition len (s : string) : Z := Z.of_nat (String.length s).

(** [s.charCodeAt(i)], as a character; out of range reads are not made by
    the code below, [NUL] stands for them. *)
Definition charAt (s : string) (i : Z) : ascii :=
  if i <? 0 then NUL
  else match String.get (Z.to_nat i) s with
       | Some c => c
       | None => NUL
       end.

(** [s.slice(a, b)] for [0 <= a]. *)
Definition slice (s : string) (a b : Z) : string :=
  String.substring (Z.to_nat a) (Z.to_nat (b - a)) s.

(** [s.lastIndexOf(c)] for a one-character needle; [-1] when absent. *)
Fixpoint lastIndexOf_from (c : ascii) (s : string) (i : Z) (found : Z) : Z :=
  match s with
  | EmptyString => found
  | String d r =>
      lastIndexOf_from c r (i + 1) (if Ascii.eqb d c then i else found)
  end.

Definition lastIndexOf (s : string) (c : ascii) : Z :=
  lastIndexOf_from c s 0 (-1).

(** [s.includes(pat)]. *)
Fixpoint includes (s pat : string) : bool :=
  String.prefix pat s ||
  match s with
  | EmptyString => false
  | String _ r => includes r pat
  end.

(** [s.replaceAll(pat, rep)] for a string pattern: the occurrences are found
    left to right and do not overlap.  [skip] counts the characters of a
    match that remain to be passed over. *)
Fixpoint replaceAll_from (pat rep : string) (skip : nat) (s : string) : string :=
  match s with
  | EmptyString => EmptyString
  | String c r =>
      match skip with
      | S k => replaceAll_from pat rep k r
      | O =>
          if String.prefix pat s
          then rep ++ replaceAll_from pat rep (Nat.pred (String.length pat)) r
          else String c (replaceAll_from pat rep O r)
      end
  end.

(** With the empty pattern JavaScript puts [rep] before every character and
    at the end. *)
Fixpoint intersperse_all (rep : string) (s : string) : string :=
  match s with
  | EmptyString => rep
  | String c r => rep ++ String c (intersperse_all rep r)
  end.

Definition replaceAll (s pat rep : string) : string :=
  match pat with
  | EmptyString => intersperse_all rep s
  | _ => replaceAll_from pat rep O s
  end.

(** [xs.join(sep)] is [String.concat sep xs]. *)
Definition join (xs : list string) (sep : string) : string :=
  String.concat sep xs.

(** [String(n)] for a length. *)
Definition of_nat (n : nat) : string :=
  NilEmpty.string_of_uint (Nat.to_uint n).

End JsString.

Import JsString.

(* ================================================================== *)
(** * Node's [path.posix.normalize] *)
(* ================================================================== *)

(** The plugin calls [path.posix.normalize] of [node:path].  The model
    follows Node's [normalizeString] loop variable by variable. *)

Module NodePath.

Record NormState := mkNorm {
  res : string;
  lastSegmentLength : Z;
  lastSlash : Z;
  dots : Z;
  code : ascii
}.

Definition isPosixPathSeparator (c : ascii) : bool := Ascii.eqb c "/"%char.

Definition CHAR_DOT : ascii := "."%char.

(** The body of the [for] loop at index [i]; [None] is [break]. *)
Definition normalizeString_body (path : string) (allowAboveRoot : bool)
    (i : Z) (st : NormState) : option NormState :=
  let next_code :=
    if i <? len path then Some (charAt path i)
    else if isPosixPathSeparator (code st) then None
    else Some "/"%char in
  match next_code with
  | None => None
  | Some c =>
    if isPosixPathSeparator c then
      if (lastSlash st =? i - 1) || (dots st =? 1) then
        Some (mkNorm (res st) (lastSegmentLength st) i 0 c)
      else if dots st =? 2 then
        let r := res st in
        let not_dotdot :=
          (len r <? 2) || negb (lastSegmentLength st =? 2)
          || negb (Ascii.eqb (charAt r (len r - 1)) CHAR_DOT)
          || negb (Ascii.eqb (charAt r (len r - 2)) CHAR_DOT) in
        let above_root :=
          if allowAboveRoot
          then mkNorm (r ++ (if len r >? 0 then "/.." else "..")) 2 i 0 c
          else mkNorm r (lastSegmentLength st) i 0 c in
        if not_dotdot then
          if len r >? 2 then
            let lastSlashIndex := lastIndexOf r "/"%char in
            if lastSlashIndex =? -1 then Some (mkNorm "" 0 i 0 c)
            else
              let r' := slice r 0 lastSlashIndex in
              Some (mkNorm r' (len r' - 1 - lastIndexOf r' "/"%char) i 0 c)
          else if negb (len r =? 0) then Some (mkNorm "" 0 i 0 c)
          else Some above_root
        else Some above_root
      else
        let seg := slice path (lastSlash st + 1) i in
        let r := res st in
        Some (mkNorm (if len r >? 0 then r ++ "/" ++ seg else seg)
                     (i - lastSlash st - 1) i 0 c)
    else if Ascii.eqb c CHAR_DOT && negb (dots st =? -1) then
      Some (mkNorm (res st) (lastSegmentLength st) (lastSlash st) (dots st + 1) c)
    else
      Some (mkNorm (res st) (lastSegmentLength st) (lastSlash st) (-1) c)
  end.

(** [for (let i = 0; i <= path.length; ++i)]: [n] iterations remain. *)
Fixpoint normalizeString_loop (path : string) (allowAboveRoot : bool)
    (n : nat) (i : Z) (st : NormState) : NormState :=
  match n with
  | O => st
  | S n' =>
      match normalizeString_body path allowAboveRoot i st with
      | None => st
      | Some st' => normalizeString_loop path allowAboveRoot n' (i + 1) st'
      end
  end.

Definition normalizeString (path : string) (allowAboveRoot : bool) : string :=
  res (normalizeString_loop path allowAboveRoot (S (String.length path)) 0
         (mkNorm "" 0 (-1) 0 NUL)).

Definition normalize (path : string) : string :=
  if len path =? 0 then "."
  else
    let isAbsolute := Ascii.eqb (charAt path 0) "/"%char in
    let trailingSeparator := Ascii.eqb (charAt path (len path - 1)) "/"%char in
    let p := normalizeString path (negb isAbsolute) in
    if len p =? 0 then
      if isAbsolute then "/" else if trailingSeparator then "./" else "."
    else
      let p := if trailingSeparator then p ++ "/" else p in
      if isAbsolute then "/" ++ p else p.

End NodePath.

(* ================================================================== *)
(** * The glob normalizer of [load] *)
(* ================================================================== *)

(** [path.posix.normalize(userGlobPattern).replaceAll("(", "\\(").replaceAll(")", "\\)")] *)
Definition glob_normalize (userGlobPattern : string) : string :=
  replaceAll
    (replaceAll (NodePath.normalize userGlobPattern) "(" (String backslash "("))
    ")" (String backslash ")").

(** The spec's words: every literal parenthesis is preceded by a backslash and
    nothing else changes. *)
Definition is_paren (c : ascii) : bool :=
  Ascii.eqb c "("%char || Ascii.eqb c ")"%char.

Fixpoint escape_parens_spec (s : string) : string :=
  match s with
  | EmptyString => EmptyString
  | String c r =>
      if is_paren c then String backslash (String c (escape_parens_spec r))
      else String c (escape_parens_spec r)
  end.

(** Taking the escaping backslashes away again. *)
Fixpoint unescape_parens (s : string) : string :=
  match s with
  | EmptyString => EmptyString
  | String c r =>
      if Ascii.eqb c backslash then
        match r with
        | String d r' =>
            if is_paren d then String d (unescape_parens r')
            else String c (unescape_parens r)
        | EmptyString => String c EmptyString
        end
      else String c (unescape_parens r)
  end.

(** What [replaceAll] does with a one-character pattern, character by
    character. *)
Fixpoint subst_char (c : ascii) (rep s : string) : string :=
  match s with
  | EmptyString => EmptyString
  | String d r =>
      if Ascii.eqb d c then rep ++ subst_char c rep r
      else String d (subst_char c rep r)
  end.

(* ================================================================== *)
(** * The module synthesizer *)
(* ================================================================== *)

(** [createExportStatements(base, files)], template literal by template
    literal.  Line breaks inside the templates are [nl]. *)

Definition stories_entry (file : string) : string :=
  dq ++ file ++ dq ++ ": import(/* @vite-ignore */ '" ++ file ++ "'), ".

Definition entries (files : list string) : list string :=
  map stories_entry files.

Definition _base (base : string) : string :=
  "export const base = " ++ dq ++ base ++ dq ++ ";".

Definition _stories (files : list string) : string :=
  "export const stories = {" ++ nl ++
  "  " ++ join (entries files) nl ++ nl ++
  "  };".

Definition map_entry (a : string) : string :=
  dq ++ a ++ dq ++ ": import(" ++ dq ++ a ++ dq ++ ")".

Definition record_entry (a : string) : string :=
  dq ++ a ++ dq ++ ": null".

(** The text of [loadStories] from the end of the [record] literal on. *)
Definition loadStories_tail : string :=
  ";" ++ nl ++
  nl ++
  "    const loadPromises = Array.from(Object.entries(map)).map(([key, loader]) => {" ++ nl ++
  "      return loader.then((mod) => {" ++ nl ++
  "        record[key] = mod.default ?? mod;" ++ nl ++
  "      });" ++ nl ++
  "    });" ++ nl ++
  "    " ++ nl ++
  "    await Promise.allSettled(loadPromises);" ++ nl ++
  nl ++
  "    return record;" ++ nl ++
  "  };".

Definition _loadStories (files : list string) : string :=
  "export const loadStories = async () => {" ++ nl ++
  "    " ++ nl ++
  "    // this map lets our imports be statically analyzed" ++ nl ++
  "    const map = {" ++ nl ++
  "      " ++ join (map map_entry files) ("," ++ nl) ++ nl ++
  "    };" ++ nl ++
  nl ++
  "    const record = {" ++ nl ++
  "      " ++ join (map record_entry files) ("," ++ nl) ++ nl ++
  "    }" ++ loadStories_tail.

Definition createExportStatements (base : string) (files : list string) : string :=
  nl ++
  "  " ++ _base base ++ nl ++
  "  " ++ _stories files ++ nl ++
  "  " ++ _loadStories files ++ nl ++
  "  ".

(** The text after the [base] export. *)
Definition text_after_base (files : list string) : string :=
  nl ++ "  " ++ _stories files ++
  nl ++ "  " ++
   "export const loadStories = async () => {" ++ nl ++
   "    " ++ nl ++
   "    // this map lets our imports be statically analyzed" ++ nl ++
   "    const map = {" ++ nl ++
   "      " ++ join (map map_entry files) ("," ++ nl) ++ nl ++
   "    };" ++
  nl ++ nl ++
   "    const record = {" ++ nl ++
   "      " ++ join (map record_entry files) ("," ++ nl) ++ nl ++
   "    }" ++
  loadStories_tail ++ nl ++ "  ".

(* ================================================================== *)
(** * Reading the synthesized text back *)
(* ================================================================== *)

(** The host tool hands the text to a JavaScript parser.  [ModuleReader]
    reads exactly the shape the synthesizer writes: string literals with
    their escape sequences, object literals whose values are [import(...)]
    calls or [null], and the fixed text around them.  [None] means the text
    is outside that shape. *)

Module ModuleReader.

Declare Scope reader_scope.

Definition is_ws (c : ascii) : bool :=
  Ascii.eqb c " "%char || Ascii.eqb c LF || Ascii.eqb c CR || Ascii.eqb c "009"%char.

Fixpoint skip_ws (t : string) : string :=
  match t with
  | String c r => if is_ws c then skip_ws r else t
  | EmptyString => t
  end.

(** [expect p t]: the text [t] starts with [p]; the rest is returned. *)
Fixpoint expect (p t : string) : option string :=
  match p with
  | EmptyString => Some t
  | String c p' =>
      match t with
      | String d t' => if Ascii.eqb c d then expect p' t' else None
      | EmptyString => None
      end
  end.

(** The character a single-character escape stands for (ECMAScript
    SingleEscapeCharacter); other escapes are not read. *)
Definition single_escape (e : ascii) : option ascii :=
  if Ascii.eqb e "n"%char then Some LF
  else if Ascii.eqb e "r"%char then Some CR
  else if Ascii.eqb e "t"%char then Some "009"%char
  else if Ascii.eqb e "b"%char then Some "008"%char
  else if Ascii.eqb e "v"%char then Some "011"%char
  else if Ascii.eqb e "f"%char then Some "012"%char
  else if Ascii.eqb e dquote then Some dquote
  else if Ascii.eqb e squote then Some squote
  else if Ascii.eqb e backslash then Some backslash
  else None.

(** The characters of a string literal after its opening quote [q], up to
    the closing quote: the value and the text that follows. *)
Fixpoint read_literal_body (q : ascii) (t : string) : option (string * string) :=
  match t with
  | EmptyString => None
  | String c r =>
      if Ascii.eqb c q then Some (EmptyString, r)
      else if Ascii.eqb c LF || Ascii.eqb c CR then None
      else if Ascii.eqb c backslash then
        match r with
        | String e r' =>
            match single_escape e, read_literal_body q r' with
            | Some v, Some (s, rest) => Some (String v s, rest)
            | _, _ => None
            end
        | EmptyString => None
        end
      else
        match read_literal_body q r with
        | Some (s, rest) => Some (String c s, rest)
        | None => None
        end
  end.

Definition read_string_literal (t : string) : option (string * string) :=
  match t with
  | String c r =>
      if Ascii.eqb c dquote || Ascii.eqb c squote then read_literal_body c r
      else None
  | EmptyString => None
  end.

(** A block comment, if one starts here, is passed over. *)
Fixpoint after_comment_end (t : string) : option string :=
  match t with
  | EmptyString => None
  | String c r =>
      match expect "*/" t with
      | Some rest => Some rest
      | None => after_comment_end r
      end
  end.

Definition skip_block_comment (t : string) : option string :=
  match expect "/*" t with
  | Some r => after_comment_end r
  | None => Some t
  end.

(** A line comment, if one starts here, is passed over. *)
Fixpoint after_line_end (t : string) : string :=
  match t with
  | EmptyString => t
  | String c r => if Ascii.eqb c LF then r else after_line_end r
  end.

Definition skip_line_comment (t : string) : string :=
  match expect "//" t with
  | Some r => after_line_end r
  | None => t
  end.

(** [import(<comment>? <string literal>)]: the specifier. *)
Definition read_import (t : string) : option (string * string) :=
  match expect "import(" t with
  | None => None
  | Some t1 =>
      match skip_block_comment (skip_ws t1) with
      | None => None
      | Some t2 =>
          match read_string_literal (skip_ws t2) with
          | None => None
          | Some (spec, t3) =>
              match expect ")" (skip_ws t3) with
              | Some t4 => Some (spec, t4)
              | None => None
              end
          end
      end
  end.

(** [null]. *)
Definition read_null (t : string) : option (unit * string) :=
  match expect "null" t with
  | Some r => Some (tt, r)
  | None => None
  end.

Section Props.
Context {A : Type} (read_value : string -> option (A * string)).

(** The properties of an object literal after its opening brace, with
    [fuel] bounding their number. *)
Fixpoint read_props (fuel : nat) (t : string) : option (list (string * A) * string) :=
  match fuel with
  | O => None
  | S n =>
      let t0 := skip_ws t in
      match expect "}" t0 with
      | Some r => Some ([], r)
      | None =>
          match read_string_literal t0 with
          | None => None
          | Some (k, t1) =>
              match expect ":" (skip_ws t1) with
              | None => None
              | Some t2 =>
                  match read_value (skip_ws t2) with
                  | None => None
                  | Some (v, t3) =>
                      let t4 := skip_ws t3 in
                      match expect "," t4 with
                      | Some t5 =>
                          match read_props n t5 with
                          | Some (ps, r) => Some ((k, v) :: ps, r)
                          | None => None
                          end
                      | None =>
                          match expect "}" t4 with
                          | Some r => Some ([(k, v)], r)
                          | None => None
                          end
                      end
                  end
              end
          end
      end
  end.

Definition read_object (t : string) : option (list (string * A) * string) :=
  match expect "{" t with
  | Some r => read_props (S (String.length r)) r
  | None => None
  end.
End Props.

(** What the reader finds in a synthesized module. *)
Record ModuleText := mkModuleText {
  m_base : string;
  m_stories : list (string * string);
  m_map : list (string * string);
  m_record : list (string * unit)
}.

Notation "x <- c ;; k" :=
  (match c with Some x => k | None => None end)
  (at level 61, c at next level, right associativity, only parsing) : reader_scope.
Notation "' p <- c ;; k" :=
  (match c with Some p => k | None => None end)
  (at level 61, p pattern, c at next level, right associativity, only parsing)
  : reader_scope.
Local Open Scope reader_scope.

(** [export const base = "...";] *)
Definition read_base_export (t : string) : option (string * string) :=
  t1 <- expect "export const base = " (skip_ws t) ;;
  '(base, t2) <- read_string_literal t1 ;;
  t3 <- expect ";" t2 ;;
  Some (base, t3).

(** [export const stories = { ... };] *)
Definition read_stories_export (t : string)
  : option (list (string * string) * string) :=
  t1 <- expect "export const stories = " (skip_ws t) ;;
  '(stories, t2) <- read_object read_import t1 ;;
  t3 <- expect ";" t2 ;;
  Some (stories, t3).

(** [const map = { ... };] after the head of [loadStories] and its comment. *)
Definition read_map_statement (t : string)
  : option (list (string * string) * string) :=
  t1 <- expect "export const loadStories = async () => {" (skip_ws t) ;;
  t2 <- expect "const map = " (skip_ws (skip_line_comment (skip_ws t1))) ;;
  '(map_props, t3) <- read_object read_import t2 ;;
  t4 <- expect ";" t3 ;;
  Some (map_props, t4).

(** [const record = { ... }] *)
Definition read_record_statement (t : string)
  : option (list (string * unit) * string) :=
  t1 <- expect "const record = " (skip_ws t) ;;
  read_object read_null t1.

(** The rest of [loadStories] is read token by token, with any white space
    between tokens.  A word (identifier or keyword) ends where the next
    character cannot belong to it; after [return] the operand has to follow
    on the same line, or the statement would end there. *)
Definition is_ident_char (c : ascii) : bool :=
  let n := nat_of_ascii c in
  ((97 <=? n) && (n <=? 122) || (65 <=? n) && (n <=? 90)
   || (48 <=? n) && (n <=? 57) || (n =? 95) || (n =? 36))%nat.

Definition is_blank (c : ascii) : bool :=
  Ascii.eqb c " "%char || Ascii.eqb c "009"%char.

Fixpoint skip_blanks (t : string) : string :=
  match t with
  | String c r => if is_blank c then skip_blanks r else t
  | EmptyString => t
  end.

Definition expect_word (w t : string) : option string :=
  match expect w t with
  | Some (String c r) => if is_ident_char c then None else Some (String c r)
  | other => other
  end.

Inductive token :=
  | word (w : string)
  | word_on_line (w : string)
  | punct (p : string).

Definition read_token (tok : token) (t : string) : option string :=
  match tok with
  | word w => expect_word w (skip_ws t)
  | word_on_line w => expect_word w (skip_blanks t)
  | punct p => expect p (skip_ws t)
  end.

Fixpoint read_tokens (toks : list token) (t : string) : option string :=
  match toks with
  | [] => Some t
  | tok :: toks' =>
      match read_token tok t with
      | Some r => read_tokens toks' r
      | None => None
      end
  end.

(** [;] after the [record] literal, then
    [const loadPromises = Array.from(Object.entries(map)).map(([key, loader]) => {
       return loader.then((mod) => { record[key] = mod.default ?? mod; }); });
     await Promise.allSettled(loadPromises);
     return record;]
    and the end of the arrow function, [};]. *)
Definition loader_statements : list token :=
  [punct ";";
   word "const"; word "loadPromises"; punct "=";
   word "Array"; punct "."; word "from"; punct "(";
   word "Object"; punct "."; word "entries"; punct "("; word "map"; punct ")"; punct ")";
   punct "."; word "map"; punct "(";
   punct "("; punct "["; word "key"; punct ","; word "loader"; punct "]"; punct ")";
   punct "=>"; punct "{";
   word "return"; word_on_line "loader"; punct "."; word "then"; punct "(";
   punct "("; word "mod"; punct ")"; punct "=>"; punct "{";
   word "record"; punct "["; word "key"; punct "]"; punct "=";
   word "mod"; punct "."; word "default"; punct "??"; word "mod"; punct ";";
   punct "}"; punct ")"; punct ";";
   punct "}"; punct ")"; punct ";";
   word "await"; word "Promise"; punct "."; word "allSettled"; punct "(";
   word "loadPromises"; punct ")"; punct ";";
   word "return"; word_on_line "record"; punct ";";
   punct "}"; punct ";"].

Definition read_loader_statements (t : string) : option string :=
  read_tokens loader_statements t.

(** The statements that follow the [base] export, up to the end of the
    text, after which only white space may come. *)
Definition read_exports_after_base (t : string)
  : option (list (string * string) * list (string * string) * list (string * unit)) :=
  '(stories, t2) <- read_stories_export t ;;
  '(map_props, t3) <- read_map_statement t2 ;;
  '(record_props, t4) <- read_record_statement t3 ;;
  t5 <- read_loader_statements t4 ;;
  if String.eqb (skip_ws t5) ""
  then Some (stories, map_props, record_props)
  else None.

Definition read_module (text : string) : option ModuleText :=
  '(base, t1) <- read_base_export text ;;
  '(stories, map_props, record_props) <- read_exports_after_base t1 ;;
  Some (mkModuleText base stories map_props record_props).

End ModuleReader.

(* ================================================================== *)
(** * Strings that can be written between quotes as they are *)
(* ================================================================== *)

(** The synthesizer writes [base] and the paths between quotes without
    escaping.  A string stands for itself there when it holds no closing
    quote, no backslash and no line break. *)
Definition plain_char (q c : ascii) : bool :=
  negb (Ascii.eqb c q || Ascii.eqb c LF || Ascii.eqb c CR || Ascii.eqb c backslash).

Fixpoint literal_safe (q : ascii) (s : string) : bool :=
  match s with
  | EmptyString => true
  | String c r => plain_char q c && literal_safe q r
  end.

(** [base] is written between double quotes only. *)
Definition base_safe (base : string) : bool := literal_safe dquote base.

(** A path is written between double quotes (keys, [import("...")]) and
    between single quotes ([import('...')] in [stories]). *)
Definition path_safe (file : string) : bool :=
  literal_safe dquote file && literal_safe squote file.

Fixpoint all_ws (s : string) : bool :=
  match s with
  | EmptyString => true
  | String c r => ModuleReader.is_ws c && all_ws r
  end.

(** The value texts the synthesizer writes after a key, and a property with
    such a value. *)
Definition import_commented (f : string) : string :=
  "import(/* @vite-ignore */ '" ++ f ++ "')".

Definition import_plain (a : string) : string :=
  "import(" ++ dq ++ a ++ dq ++ ")".

Definition property_text (value_text : string -> string) (a : string) : string :=
  dq ++ a ++ dq ++ ": " ++ value_text a.

(** The separator [join] puts after an element that is not the last. *)
Definition opt_sep (sep : string) (rest : list string) : string :=
  match rest with
  | [] => ""
  | _ => sep
  end.

(** What the reader finds in the text synthesized for [base] and [files]. *)
Definition synthesized (base : string) (files : list string)
  : ModuleReader.ModuleText :=
  ModuleReader.mkModuleText base
    (map (fun f => (f, f)) files)
    (map (fun a => (a, a)) files)
    (map (fun a => (a, tt)) files).

(* ================================================================== *)
(** * JavaScript values, objects and promises *)
(* ================================================================== *)

Module Js.

#[local] Set Warnings "-register-all".

(** [VFunction props] is a callable object (a function or a class); of what
    calling it does nothing is known, only its own properties are. *)
Inductive value :=
  | VUndefined
  | VNull
  | VBool (b : bool)
  | VNumber (n : Z)
  | VString (s : string)
  | VObject (props : list (string * value))
  | VFunction (props : list (string * value)).

(** A promise, by the way it settles; also the result of an [async]
    function. *)
Inductive settled (A : Type) :=
  | Fulfilled (v : A)
  | Rejected (reason : value).
Arguments Fulfilled {A} v.
Arguments Rejected {A} reason.

(** An object used as a map: its own string-keyed properties in insertion
    order. *)
Definition JsObject (V : Type) := list (string * V).

Fixpoint obj_get {V} (o : JsObject V) (k : string) : option V :=
  match o with
  | [] => None
  | (k', v) :: r => if String.eqb k' k then Some v else obj_get r k
  end.

(** [o[k] = v]: an existing property keeps its place. *)
Fixpoint obj_set {V} (o : JsObject V) (k : string) (v : V) : JsObject V :=
  match o with
  | [] => [(k, v)]
  | (k', v') :: r =>
      if String.eqb k' k then (k', v) :: r else (k', v') :: obj_set r k v
  end.

(** [{ "k1": v1, "k2": v2, ... }]: properties are defined left to right, a
    repeated key keeps the last value; the key [__proto__] sets the
    prototype and defines no property. *)
Definition define_property {V} (o : JsObject V) (kv : string * V) : JsObject V :=
  if String.eqb (fst kv) "__proto__" then o else obj_set o (fst kv) (snd kv).

Definition object_literal {V} (props : list (string * V)) : JsObject V :=
  fold_left define_property props [].

Definition Object_entries {V} (o : JsObject V) : list (string * V) := o.

Definition keys {V} (o : JsObject V) : list string := map fst o.

(** The properties an object or a function carries itself. *)
Definition own_properties (v : value) : list (string * value) :=
  match v with
  | VObject props => props
  | VFunction props => props
  | _ => []
  end.

(** [typeof v === "function"] *)
Definition callable (v : value) : bool :=
  match v with
  | VFunction _ => true
  | _ => false
  end.

(** The property [k] found on a value [v] that is neither [null] nor
    [undefined]: an own property, or [undefined] (the names read in this
    program, [code] and [default], are on no built-in prototype). *)
Definition get_member (v : value) (k : string) : value :=
  match obj_get (own_properties v) k with
  | Some x => x
  | None => VUndefined
  end.

Definition type_error (msg : string) : value :=
  VObject [("name", VString "TypeError"); ("message", VString msg)].

(** [v.k]: reading a property of [null] or [undefined] throws a
    [TypeError]; on any other value it is [get_member]. *)
Definition read_member (v : value) (k : string) : settled value :=
  match v with
  | VNull =>
      Rejected (type_error ("Cannot read properties of null (reading '" ++ k ++ "')"))
  | VUndefined =>
      Rejected (type_error ("Cannot read properties of undefined (reading '" ++ k ++ "')"))
  | _ => Fulfilled (get_member v k)
  end.

(** [a ?? b] *)
Definition nullish_coalesce (a b : value) : value :=
  match a with
  | VUndefined | VNull => b
  | _ => a
  end.

(** [await p; k] inside an [async] function. *)
Definition await {A B} (p : settled A) (k : A -> settled B) : settled B :=
  match p with
  | Fulfilled v => k v
  | Rejected e => Rejected e
  end.

(** [p.then(cb)]: the promise of what the callback does with the value [p]
    fulfils with; a rejection of [p] is passed on. *)
Definition then_ (p : settled value) (cb : value -> settled value) : settled value :=
  match p with
  | Fulfilled v => cb v
  | Rejected e => Rejected e
  end.

(** One result object of [Promise.allSettled]. *)
Definition settlement (p : settled value) : value :=
  match p with
  | Fulfilled v => VObject [("status", VString "fulfilled"); ("value", v)]
  | Rejected e => VObject [("status", VString "rejected"); ("reason", e)]
  end.

Definition Promise_allSettled (ps : list (settled value)) : settled (list value) :=
  Fulfilled (map settlement ps).

End Js.

Import Js.

(* ================================================================== *)
(** * The synthesized [loadStories] at run time *)
(* ================================================================== *)

(** The body of the generated [loadStories], over what the reader found in
    the text: the [map] literal is evaluated (each [import(...)] is a
    promise that settles as [imports] says), the [record] literal is
    evaluated, every loader gets its [then] callback, and the function
    returns [record] after [Promise.allSettled].  The callbacks run in the
    order in which the imports settle, which is not fixed. *)

Module LoadStories.

Import ModuleReader.

Section Body.
Variable imports : string -> settled value.
Variable m : ModuleText.

Definition map_object : JsObject (settled value) :=
  object_literal (map (fun kv => (fst kv, imports (snd kv))) (m_map m)).

Definition record_object : JsObject value :=
  object_literal (map (fun kv => (fst kv, VNull)) (m_record m)).

(** [(mod) => { record[key] = mod.default ?? mod; }], run when the loader
    fulfils; a rejected loader runs nothing.  When [mod.default] throws
    (the import fulfilled with [null] or [undefined]) nothing is stored. *)
Definition on_settled (key : string) (loader : settled value)
    (record : JsObject value) : JsObject value :=
  match loader with
  | Fulfilled mod_ =>
      match read_member mod_ "default" with
      | Fulfilled d => obj_set record key (nullish_coalesce d mod_)
      | Rejected _ => record
      end
  | Rejected _ => record
  end.

(** The loaders still pending settle one at a time, in any order. *)
Inductive settles_to :
  list (string * settled value) -> JsObject value -> JsObject value -> Prop :=
| settles_done record : settles_to [] record record
| settles_pick l1 key loader l2 record record' :
    settles_to (l1 ++ l2) (on_settled key loader record) record' ->
    settles_to (l1 ++ (key, loader) :: l2) record record'.

(** The promises [loader.then(...)] gives: the callback returns nothing,
    or throws where [mod.default] does. *)
Definition loadPromises : list (settled value) :=
  map (fun e =>
         then_ (snd e)
           (fun mod_ => await (read_member mod_ "default")
                          (fun _ => Fulfilled VUndefined)))
      (Object_entries map_object).

(** [return record] resolves the promise of the [async] function with
    [record]: the promise fulfils with [record], unless [record.then] is
    callable; it then follows what that call does, of which nothing is
    known ([None]). *)
Definition resolve_with (record : JsObject value)
  : option (settled (JsObject value)) :=
  if callable (get_member (VObject record) "then") then None
  else Some (Fulfilled record).

(** [await Promise.allSettled(loadPromises); return record;] *)
Definition finish (record : JsObject value) : option (settled (JsObject value)) :=
  match Promise_allSettled loadPromises with
  | Fulfilled _ => resolve_with record
  | Rejected e => Some (Rejected e)
  end.

Inductive loadStories_returns : settled (JsObject value) -> Prop :=
| returns_record record r :
    settles_to (Object_entries map_object) record_object record ->
    finish record = Some r ->
    loadStories_returns r.

(** The run in which the imports settle in the order of the entries. *)
Definition settle_in_order (l : list (string * settled value))
    (record : JsObject value) : JsObject value :=
  fold_left (fun r e => on_settled (fst e) (snd e) r) l record.

Definition loadStories_in_order : option (settled (JsObject value)) :=
  finish (settle_in_order (Object_entries map_object) record_object).
End Body.

(** [loadStories] of the module whose text is [text], in that run; [None]
    also when the text is no module of the synthesized shape. *)
Definition loadStories_of_text (imports : string -> settled value) (text : string)
  : option (settled (JsObject value)) :=
  match read_module text with
  | Some m => loadStories_in_order imports m
  | None => None
  end.

End LoadStories.

(* ================================================================== *)
(** * The plugin *)
(* ================================================================== *)

(** picocolors only wraps text in colour codes; colours are off here. *)
Module pc.
Definition magenta (s : string) : string := s.
Definition green (s : string) : string := s.
Definition bold (s : string) : string := s.
Definition dim (s : string) : string := s.
End pc.

Definition bec := pc.magenta.
Definition plugin_prefix : string := bec "  📘 bookemoji  ".
Definition virtualModuleId : string := "virtual:bookemoji".
Definition resolvedVirtualModuleId : string := String NUL virtualModuleId.

Record BookEmojiPluginOptions := mkOptions {
  debug : option bool;
  silent : option bool
}.

(** [BookEmojiConfig] of [./config.js], which is not among the sources; the
    plugin reads its optional fields [base] and [stories]. *)
Record BookEmojiConfig := mkBookEmojiConfig {
  base : option string;
  stories : option string
}.

Inductive Command := build | serve.

(** The fields of Vite's [ResolvedConfig] the plugin reads. *)
Record ResolvedConfig := mkResolvedConfig {
  root : string;
  command : Command
}.

Inductive LogLevel := info | error | warn | debug_level.

Inductive ConsoleMethod := console_error | console_log | console_warn.

Record ConsoleLine := mkLine {
  method : ConsoleMethod;
  args : list value
}.

(** The variables the hooks close over, and the console. *)
Record Closure := mkClosure {
  config : option ResolvedConfig;
  bookEmojiConfig : option BookEmojiConfig;
  userGlobPattern : string;
  projectRoot : option string;
  console : list ConsoleLine
}.

(** The state in which [bookEmojiPlugin] returns the hooks. *)
Definition default_glob : string := "./books/stories/**/*.book.svelte".

Definition initial_closure : Closure :=
  mkClosure None None default_glob None [].

(** ** A state monad with exceptions for the hooks *)

Definition M (A : Type) : Type := Closure -> settled A * Closure.

Definition ret {A} (a : A) : M A := fun st => (Fulfilled a, st).

Definition bind {A B} (c : M A) (k : A -> M B) : M B :=
  fun st =>
    match c st with
    | (Fulfilled a, st') => k a st'
    | (Rejected e, st') => (Rejected e, st')
    end.

Definition throw {A} (e : value) : M A := fun st => (Rejected e, st).

Definition try_catch {A} (body : M A) (handler : value -> M A) : M A :=
  fun st =>
    match body st with
    | (Fulfilled a, st') => (Fulfilled a, st')
    | (Rejected e, st') => handler e st'
    end.

Definition get_closure : M Closure := fun st => (Fulfilled st, st).

Definition await_ {A} (p : settled A) : M A := fun st => (p, st).

(** An expression that returns a value or throws, evaluated in a hook. *)
Definition evaluate {A} (r : settled A) : M A := fun st => (r, st).

Declare Scope hook_scope.
Delimit Scope hook_scope with hook.
Notation "x <- c ;; k" := (bind c (fun x => k))
  (at level 61, c at next level, right associativity) : hook_scope.
Notation "c ;; k" := (bind c (fun _ => k))
  (at level 61, right associativity) : hook_scope.
Local Open Scope hook_scope.

Definition when (b : bool) (c : M unit) : M unit := if b then c else ret tt.

Fixpoint forEach {A} (l : list A) (f : A -> M unit) : M unit :=
  match l with
  | [] => ret tt
  | x :: r => f x ;; forEach r f
  end.

Definition print (method : ConsoleMethod) (args : list value) : M unit :=
  fun st =>
    (Fulfilled tt,
     mkClosure (config st) (bookEmojiConfig st) (userGlobPattern st)
               (projectRoot st) (console st ++ [mkLine method args])).

(** [options?.debug === true] *)
Definition debug_enabled (options : option BookEmojiPluginOptions) : bool :=
  match options with
  | Some o => match debug o with Some true => true | _ => false end
  | None => false
  end.

Section Plugin.
Variable options : option BookEmojiPluginOptions.

Definition log (logLevel : LogLevel) (args : list value) : M unit :=
  match logLevel with
  | error => print console_error (VString plugin_prefix :: args)
  | info => print console_log (VString plugin_prefix :: args)
  | warn => print console_warn (VString plugin_prefix :: args)
  | debug_level =>
      if debug_enabled options
      then print console_log (VString plugin_prefix :: VString "[debug]" :: args)
      else ret tt
  end.

Definition error_ (args : list value) : M unit := log error args.

(** *** [configResolved] *)

(** What the hook meets on disk: [fs.access] may reject, the dynamic
    [import] may reject, or the module is imported; [Some d] is a truthy
    default export whose [bookemoji] property is [d]. *)
Inductive ConfigFile :=
  | access_rejects (e : value)
  | import_rejects (e : value)
  | imported (default : option (option BookEmojiConfig)).

Definition set_root (rc : ResolvedConfig) : M unit :=
  fun st =>
    (Fulfilled tt,
     mkClosure (Some rc) (bookEmojiConfig st) (userGlobPattern st)
               (Some (root rc)) (console st)).

Definition set_book_config (b : option BookEmojiConfig) (g : string) : M unit :=
  fun st =>
    (Fulfilled tt,
     mkClosure (config st) b g (projectRoot st) (console st)).

(** [bookEmojiConfig?.stories ?? ""] *)
Definition stories_or_empty (b : option BookEmojiConfig) : string :=
  match b with
  | Some c => match stories c with Some s => s | None => "" end
  | None => ""
  end.

(** [bookEmojiConfig?.base ?? ""] *)
Definition base_or_empty (b : option BookEmojiConfig) : string :=
  match b with
  | Some c => match base c with Some s => s | None => "" end
  | None => ""
  end.

Definition configResolved (resolvedConfig : ResolvedConfig) (file : ConfigFile)
  : M unit :=
  set_root resolvedConfig ;;
  log debug_level [VString "projectRoot"; VString (root resolvedConfig)] ;;
  let configFilePath := root resolvedConfig ++ "/svelte.config.js" in
  try_catch
    (log debug_level [VString "Attempting import of configFilePath:"; VString configFilePath] ;;
     match file with
     | access_rejects e => throw e
     | import_rejects e =>
         log debug_level [VString "Importing configFilePath:"; VString configFilePath] ;;
         throw e
     | imported default =>
         log debug_level [VString "Importing configFilePath:"; VString configFilePath] ;;
         match default with
         | Some bookemoji =>
             let glob := stories_or_empty bookemoji in
             set_book_config bookemoji glob ;;
             let action :=
               (match command resolvedConfig with
                | build => "building stories from"
                | serve => "watching"
                end) ++ " " ++ pc.dim glob in
             log info [VString (pc.green (pc.bold "config found") ++ " — " ++ pc.dim action)]
         | None => ret tt
         end ;;
         st <- get_closure ;;
         match bookEmojiConfig st with
         | None => log warn [VString "bookemoji not found in svelte.config.js"]
         | Some _ =>
             when (String.eqb (userGlobPattern st) "")
               (log warn [VString ("svelte.config.js's " ++ dq ++ "bookemoji" ++ dq
                                    ++ " does not contain a valid " ++ dq ++ "stories"
                                    ++ dq ++ " value")])
         end
     end)
    (fun e =>
       code <- evaluate (read_member e "code") ;;
       match code with
       | VString "ENOENT" => log error [VString "svelte.config.js not found."]
       | _ => log warn [VString "An unknown error when trying to load config:"; e]
       end).

(** *** [resolveId] *)

Definition resolveId (source : string) : option string :=
  if String.eqb source virtualModuleId then Some resolvedVirtualModuleId
  else None.

(** *** [load] *)

(** An entry of fast-glob in object mode. *)
Record FgEntry := mkFgEntry {
  name : string;
  path : string
}.

(** fast-glob, called with a pattern and the [cwd] option; the other
    options are constants. *)
Variable fg : string -> string -> settled (list FgEntry).

(** [!projectRoot] *)
Definition root_unset (r : option string) : bool :=
  match r with
  | None => true
  | Some s => String.eqb s ""
  end.

(** [config.command], with [config] possibly still undefined. *)
Definition config_command (c : option ResolvedConfig) : M Command :=
  match c with
  | Some rc => ret (command rc)
  | None => throw (type_error "Cannot read properties of undefined (reading 'command')")
  end.

(** The [try] block of [load], in the state [st] read at its start. *)
Definition load_try (st : Closure) : M (option string) :=
  let root_ := match projectRoot st with Some r => r | None => "" end in
  log debug_level [VString "full search path:";
                   VString (NodePath.normalize (userGlobPattern st))] ;;
  when (includes (userGlobPattern st) "(" || includes (userGlobPattern st) ")")
    (log debug_level
       [VString (pc.dim ("escaping parenthesis in " ++ dq ++ userGlobPattern st
                          ++ dq ++ " for globbing"))]) ;;
  let glob := glob_normalize (userGlobPattern st) in
  log debug_level
    [VString ("Searching for files with pattern " ++ dq ++ glob ++ dq
               ++ " relative to " ++ dq ++ root_ ++ dq)] ;;
  log debug_level [VString "Original:"; VString (userGlobPattern st)] ;;
  files <- await_ (fg glob (NodePath.normalize root_)) ;;
  cmd <- config_command (config st) ;;
  when (match cmd with build => true | serve => false end)
    (log info [VString ""]) ;;
  log info [VString ("Found " ++ of_nat (List.length files) ++ " "
                      ++ (if Nat.eqb (List.length files) 1 then "story" else "stories"))] ;;
  forEach files (fun f => log debug_level [VString "- "; VString (name f)]) ;;
  ret (Some (createExportStatements
               (base_or_empty (bookEmojiConfig st))
               (map (fun f => "./" ++ path f) files))).

(** Its [catch] block. *)
Definition load_catch (st : Closure) (err : value) : M (option string) :=
  print console_error
    [VString plugin_prefix; VString "Error globbing files:"; err] ;;
  ret (Some (createExportStatements (base_or_empty (bookEmojiConfig st)) [])).

Definition load (id : string) : M (option string) :=
  if String.eqb id resolvedVirtualModuleId then
    st <- get_closure ;;
    if root_unset (projectRoot st) then
      error_ [VString ("projectRoot not set. " ++ dq ++ "configResolved" ++ dq
                        ++ " might not have run yet. Returning empty array.")] ;;
      ret (Some (createExportStatements (base_or_empty (bookEmojiConfig st)) []))
    else
      try_catch (load_try st) (load_catch st)
  else ret None.

End Plugin.

(** The closure with another console, and the root as [load] reads it. *)
Definition root_or_empty (st : Closure) : string :=
  match projectRoot st with
  | Some r => r
  | None => ""
  end.

Definition set_console (st : Closure) (c : list ConsoleLine) : Closure :=
  mkClosure (config st) (bookEmojiConfig st) (userGlobPattern st) (projectRoot st) c.

(** The pattern [load] hands to fast-glob in a given state. *)
Definition glob_used (st : Closure) : string :=
  glob_normalize (userGlobPattern st).

(* ================================================================== *)
(** * What the claims say, as definitions *)
(* ================================================================== *)

(** The value [loadStories] is claimed to store for an imported module: its
    default export, or the module itself when it has no default export. *)
Definition default_or_self_claimed (mod_ : value) : value :=
  match obj_get (own_properties mod_) "default" with
  | Some d => d
  | None => mod_
  end.

(** The same with the module itself also standing in for a default export
    that is [null] or [undefined]. *)
Definition default_or_self (mod_ : value) : value :=
  match obj_get (own_properties mod_) "default" with
  | Some VNull | Some VUndefined | None => mod_
  | Some d => d
  end.

(** [v] is [null] or [undefined]. *)
Definition nullish (v : value) : bool :=
  match v with
  | VNull | VUndefined => true
  | _ => false
  end.

(** The entry of the returned mapping for a path whose import settled as
    [p], given what is stored for a module: [null] stays for an import that
    rejected, and for one that fulfilled with [null] or [undefined], which
    is no module. *)
Definition story_value (stored : value -> value) (p : settled value) : value :=
  match p with
  | Fulfilled mod_ => if nullish mod_ then VNull else stored mod_
  | Rejected _ => VNull
  end.

(** [loadStories] of the module synthesized for [base] and [files] returns,
    however the imports are ordered, a fulfilled promise of a mapping that
    holds [story_value stored] of its import for every path. *)
Definition loadStories_fills (stored : value -> value)
    (imports : string -> settled value) (base : string) (files : list string) : Prop :=
  exists m,
    ModuleReader.read_module (createExportStatements base files) = Some m
    /\ (exists r, LoadStories.loadStories_returns imports m r)
    /\ forall r, LoadStories.loadStories_returns imports m r ->
         exists record,
           r = Fulfilled record
           /\ forall a, In a files ->
                obj_get record a = Some (story_value stored (imports a)).

(** The text synthesized for [base] and no file is a module with its three
    exports and no story in any literal, whose [loadStories] returns a
    fulfilled promise of the empty mapping and nothing else. *)
Definition empty_module_loads_nothing (imports : string -> settled value)
    (base : string) : Prop :=
  exists m,
    ModuleReader.read_module (createExportStatements base []) = Some m
    /\ ModuleReader.m_stories m = []
    /\ ModuleReader.m_map m = []
    /\ ModuleReader.m_record m = []
    /\ LoadStories.loadStories_returns imports m (Fulfilled [])
    /\ forall r, LoadStories.loadStories_returns imports m r -> r = Fulfilled [].

(** The text synthesized for [base] and [files] defines a [stories] object
    whose quoted keys are the paths, each mapped to the import of that
    path. *)
Definition stories_keyed_by (base : string) (files : list string) : Prop :=
  exists m,
    ModuleReader.read_module (createExportStatements base files) = Some m
    /\ (forall k, In k (map fst (ModuleReader.m_stories m)) <-> In k files)
    /\ (forall k target, In (k, target) (ModuleReader.m_stories m) -> target = k).

(** While loaders are pending, a path still waiting holds [null] and a path
    already settled holds its final value. *)
Definition partly_settled (imports : string -> settled value) (files : list string)
    (pending : list (string * settled value)) (record : JsObject value) : Prop :=
  forall a, In a files ->
    (In a (map fst pending) /\ obj_get record a = Some VNull)
    \/ (~ In a (map fst pending)
        /\ obj_get record a = Some (story_value default_or_self (imports a))).

(** The warning of [configResolved] about a missing [stories]. *)
Definition stories_warning : ConsoleLine :=
  mkLine console_warn
    [VString plugin_prefix;
     VString ("svelte.config.js's " ++ dq ++ "bookemoji" ++ dq
               ++ " does not contain a valid " ++ dq ++ "stories" ++ dq ++ " value")].

(* ================================================================== *)
(** * The plugin, continued: [configureServer] *)
(* ================================================================== *)

(** A WHATWG [URL] as far as the hook reads it. *)
Record Url := mkUrl {
  origin : string;
  pathname : string
}.

(** [server.resolvedUrls] *)
Record ResolvedServerUrls := mkResolvedServerUrls {
  local : list string;
  network : list string
}.

(** What Vite's own [printUrls] and [config.logger.info] write. *)
Definition Terminal := list string.

(** [options?.silent ?? false] *)
Definition silent_or_false (options : option BookEmojiPluginOptions) : bool :=
  match options with
  | Some o => match silent o with Some b => b | None => false end
  | None => false
  end.

(** [server.resolvedUrls?.local[0]] *)
Definition first_local_url (resolvedUrls : option ResolvedServerUrls) : option string :=
  match resolvedUrls with
  | Some r => nth_error (local r) 0
  | None => None
  end.

(** [bookEmojiConfig?.base], when it is a non-empty string other than ["/"]:
    the condition [bookEmojiConfig?.base && bookEmojiConfig?.base !== "/"]. *)
Definition preview_base (b : option BookEmojiConfig) : option string :=
  match b with
  | Some c =>
      match base c with
      | Some s => if String.eqb s "" || String.eqb s "/" then None else Some s
      | None => None
      end
  | None => None
  end.

Section ConfigureServer.
Variable options : option BookEmojiPluginOptions.

(** [new URL(url)], which throws on a string that is no URL ([None]), and
    the setter [u.pathname = p]; both belong to the platform. *)
Variable URL_new : string -> option Url.
Variable URL_set_pathname : Url -> string -> Url.

(** The line [config.logger.info] gets. *)
Definition preview_line (u : Url) : string :=
  "  " ++ pc.green "➜" ++ "  " ++ pc.bold "bookemoji" ++ ": "
  ++ bec (origin u) ++ bec (pc.bold (pathname u)).

(** The function [configureServer] puts in place of [server.printUrls]:
    [_print] is the function it replaces, [resolvedUrls] and [st] are the
    server's URLs and the closure variables when it is called. *)
Definition printUrls (_print : Terminal -> settled unit * Terminal)
    (resolvedUrls : option ResolvedServerUrls) (st : Closure)
  : Terminal -> settled unit * Terminal :=
  fun t =>
    match _print t with
    | (Rejected e, t1) => (Rejected e, t1)
    | (Fulfilled _, t1) =>
        if negb (silent_or_false options) then
          match first_local_url resolvedUrls with
          | Some url =>
              if negb (String.eqb url "") then
                match preview_base (bookEmojiConfig st) with
                | Some b =>
                    match URL_new url with
                    | None => (Rejected (type_error "Invalid URL"), t1)
                    | Some u =>
                        let bookEmojiUrl := URL_set_pathname u b in
                        match config st with
                        | Some _ =>
                            (Fulfilled tt, (t1 ++ [preview_line bookEmojiUrl])%list)
                        | None =>
                            (Rejected
                               (type_error
                                  "Cannot read properties of undefined (reading 'logger')"),
                             t1)
                        end
                    end
                | None => (Fulfilled tt, t1)
                end
              else (Fulfilled tt, t1)
          | None => (Fulfilled tt, t1)
          end
        else (Fulfilled tt, t1)
    end.

End ConfigureServer.

(* ================================================================== *)
(** * Further notions used in the properties *)
(* ================================================================== *)

(** A project used where a property is shown on an input: built with base
    [/docs], two stories found. *)
Definition sample_config : ResolvedConfig := mkResolvedConfig "/srv/app" build.

Definition sample_entries : list FgEntry :=
  [mkFgEntry "a.book.svelte" "books/a.book.svelte";
   mkFgEntry "b.book.svelte" "books/x/b.book.svelte"].

Definition sample_fg (pattern cwd : string) : settled (list FgEntry) :=
  Fulfilled sample_entries.

Definition sample_closure : Closure :=
  mkClosure (Some sample_config)
            (Some (mkBookEmojiConfig (Some "/docs") (Some "./books/**/*.book.svelte")))
            "./books/**/*.book.svelte" (Some "/srv/app") [].

(** A console line that starts with the plugin's prefix. *)
Definition prefixed (l : ConsoleLine) : Prop :=
  exists rest, args l = VString plugin_prefix :: rest.

(** The closure variables, without the console. *)
Definition same_variables (st st' : Closure) : Prop :=
  config st' = config st
  /\ bookEmojiConfig st' = bookEmojiConfig st
  /\ userGlobPattern st' = userGlobPattern st
  /\ projectRoot st' = projectRoot st.

(** What [load] answers for the internal id in the state [st]: the text for
    the files fast-glob finds, or the text for no file when fast-glob
    rejects or [config] is not there to read [command] from. *)
Definition load_answer (fg : string -> string -> settled (list FgEntry))
    (st : Closure) : string :=
  let base_ := base_or_empty (bookEmojiConfig st) in
  if root_unset (projectRoot st) then createExportStatements base_ []
  else
    match fg (glob_used st) (NodePath.normalize (root_or_empty st)) with
    | Fulfilled files =>
        match config st with
        | Some _ => createExportStatements base_ (map (fun f => "./" ++ path f) files)
        | None => createExportStatements base_ []
        end
    | Rejected _ => createExportStatements base_ []
    end.

(** The closure variables after [configResolved]: only a truthy default
    export changes the plugin configuration and the glob. *)
Definition resolved_variables (rc : ResolvedConfig) (file : ConfigFile)
    (st : Closure) (c : list ConsoleLine) : Closure :=
  match file with
  | imported (Some b) =>
      mkClosure (Some rc) b (stories_or_empty b) (Some (root rc)) c
  | _ =>
      mkClosure (Some rc) (bookEmojiConfig st) (userGlobPattern st)
                (Some (root rc)) c
  end.

(** A line of the debug level: [plugin_prefix, "[debug]", ...]. *)
Definition is_debug_line (l : ConsoleLine) : bool :=
  match args l with
  | _ :: VString tag :: _ => String.eqb tag "[debug]"
  | _ => false
  end.

(** The lines that are not of the debug level. *)
Definition visible (ls : list ConsoleLine) : list ConsoleLine :=
  filter (fun l => negb (is_debug_line l)) ls.

(** [ls] is printed by a hook whose lines other than debug ones are [vis]:
    all lines carry the prefix, debug lines go to [console.log], and without
    the debug option nothing else is printed. *)
Definition printed (options : option BookEmojiPluginOptions)
    (ls vis : list ConsoleLine) : Prop :=
  Forall prefixed ls
  /\ visible ls = vis
  /\ (debug_enabled options = false -> ls = vis)
  /\ Forall (fun l => is_debug_line l = true -> method l = console_log) ls.

(** [e.code === "ENOENT"], for an [e] that is not [null] or [undefined]. *)
Definition is_enoent (e : value) : bool :=
  match get_member e "code" with
  | VString s => String.eqb s "ENOENT"
  | _ => false
  end.

(** The lines other than debug ones that [load] prints. *)
Definition load_lines (fg : string -> string -> settled (list FgEntry))
    (id : string) (st : Closure) : list ConsoleLine :=
  if String.eqb id resolvedVirtualModuleId then
    if root_unset (projectRoot st) then
      [mkLine console_error
         [VString plugin_prefix;
          VString ("projectRoot not set. " ++ dq ++ "configResolved" ++ dq
                    ++ " might not have run yet. Returning empty array.")]]
    else
      match fg (glob_used st) (NodePath.normalize (root_or_empty st)) with
      | Fulfilled files =>
          match config st with
          | Some rc =>
              ((match command rc with
                | build => [mkLine console_log [VString plugin_prefix; VString ""]]
                | serve => []
                end)
               ++ [mkLine console_log
                     [VString plugin_prefix;
                      VString ("Found " ++ of_nat (List.length files) ++ " "
                                ++ (if Nat.eqb (List.length files) 1
                                    then "story" else "stories"))]])%list
          | None =>
              [mkLine console_error
                 [VString plugin_prefix; VString "Error globbing files:";
                  type_error "Cannot read properties of undefined (reading 'command')"]]
          end
      | Rejected e =>
          [mkLine console_error
             [VString plugin_prefix; VString "Error globbing files:"; e]]
      end
  else [].

(** The lines other than debug ones that [configResolved] prints. *)
Definition not_found_warning : ConsoleLine :=
  mkLine console_warn
    [VString plugin_prefix; VString "bookemoji not found in svelte.config.js"].

Definition config_found_line (rc : ResolvedConfig) (glob : string) : ConsoleLine :=
  mkLine console_log
    [VString plugin_prefix;
     VString (pc.green (pc.bold "config found") ++ " — "
              ++ pc.dim ((match command rc with
                          | build => "building stories from"
                          | serve => "watching"
                          end) ++ " " ++ pc.dim glob))].

Definition shape_warnings (b : option BookEmojiConfig) (glob : string)
  : list ConsoleLine :=
  match b with
  | None => [not_found_warning]
  | Some _ => if String.eqb glob "" then [stories_warning] else []
  end.

Definition catch_line (e : value) : ConsoleLine :=
  if is_enoent e
  then mkLine console_error [VString plugin_prefix; VString "svelte.config.js not found."]
  else mkLine console_warn
         [VString plugin_prefix;
          VString "An unknown error when trying to load config:"; e].

(** The [catch] block reads [e.code] first: on [null] or [undefined] that
    throws, so nothing is printed and the hook rejects. *)
Definition caught_lines (e : value) : list ConsoleLine :=
  if nullish e then [] else [catch_line e].

Definition caught_outcome (e : value) : settled unit :=
  await (read_member e "code") (fun _ => Fulfilled tt).

Definition resolved_lines (rc : ResolvedConfig) (file : ConfigFile) (st : Closure)
  : list ConsoleLine :=
  match file with
  | access_rejects e => caught_lines e
  | import_rejects e => caught_lines e
  | imported (Some b) =>
      config_found_line rc (stories_or_empty b)
      :: shape_warnings b (stories_or_empty b)
  | imported None => shape_warnings (bookEmojiConfig st) (userGlobPattern st)
  end.

(** How [configResolved] ends: it rejects only where its [catch] block
    throws. *)
Definition resolved_outcome (file : ConfigFile) : settled unit :=
  match file with
  | access_rejects e => caught_outcome e
  | import_rejects e => caught_outcome e
  | imported _ => Fulfilled tt
  end.

(** Every parenthesis of [s] stands right after a backslash; [escaped] says
    whether the character before [s] is one. *)
Fixpoint parens_escaped_from (escaped : bool) (s : string) : bool :=
  match s with
  | EmptyString => true
  | String c r =>
      (if is_paren c then escaped else true)
      && parens_escaped_from (Ascii.eqb c backslash) r
  end.

Definition parens_escaped (s : string) : bool := parens_escaped_from false s.

(** How many characters of [s] are parentheses. *)
Fixpoint count_parens (s : string) : nat :=
  match s with
  | EmptyString => O
  | String c r => ((if is_paren c then 1 else 0) + count_parens r)%nat
  end.

(* ================================================================== *)
(** * Properties: the hooks *)
(* ================================================================== *)

Section HookFacts.
Variable options : option BookEmojiPluginOptions.

(** A debug line, if printed at all, goes to [console.log]. *)
Lemma log_debug_run (args : list value) (st : Closure) :
  exists ls,
    log options debug_level args st
    = (Fulfilled tt, set_console st (console st ++ ls))
    /\ Forall (fun l => method l = console_log) ls.
Proof.
  unfold log. destruct (debug_enabled options).
  - eexists. split; [reflexivity|]. repeat constructor.
  - exists []. rewrite app_nil_r. destruct st. split; [reflexivity|constructor].
Qed.

Lemma when_log_debug_run (b : bool) (args : list value) (st : Closure) :
  exists ls,
    when b (log options debug_level args) st
    = (Fulfilled tt, set_console st (console st ++ ls))
    /\ Forall (fun l => method l = console_log) ls.
Proof.
  destruct b; [apply log_debug_run|].
  exists []. rewrite app_nil_r. destruct st. split; [reflexivity|constructor].
Qed.

(** The [try] block up to a rejecting fast-glob. *)
Lemma load_try_rejected (fg : string -> string -> settled (list FgEntry))
    (st s : Closure) (e : value) :
  fg (glob_used st) (NodePath.normalize (root_or_empty st)) = Rejected e ->
  exists ls,
    load_try options fg st s = (Rejected e, set_console s (console s ++ ls))
    /\ Forall (fun l => method l = console_log) ls.
Proof.
  intros Hfg. unfold load_try.
  destruct (log_debug_run
              [VString "full search path:";
               VString (NodePath.normalize (userGlobPattern st))] s)
    as (l1 & E1 & F1).
  unfold bind at 1. rewrite E1. cbv beta iota.
  match goal with
  | |- context [bind (when ?b (log options debug_level ?a)) _ ?s1] =>
      destruct (when_log_debug_run b a s1) as (l2 & E2 & F2)
  end.
  unfold bind at 1. rewrite E2. cbv beta iota zeta.
  match goal with
  | |- context [bind (log options debug_level ?a) _ ?s1] =>
      destruct (log_debug_run a s1) as (l3 & E3 & F3)
  end.
  unfold bind at 1. rewrite E3. cbv beta iota.
  match goal with
  | |- context [bind (log options debug_level ?a) _ ?s1] =>
      destruct (log_debug_run a s1) as (l4 & E4 & F4)
  end.
  unfold bind at 1. rewrite E4. cbv beta iota.
  unfold bind at 1. unfold await_, glob_used, root_or_empty in *.
  rewrite Hfg.
  exists (l1 ++ l2 ++ l3 ++ l4)%list. split.
  - unfold set_console. cbn [config bookEmojiConfig userGlobPattern projectRoot console].
    now rewrite <- !app_assoc.
  - repeat (apply Forall_app; split); assumption.
Qed.
End HookFacts.

(** Reading a property that is there does not throw. *)
Lemma read_member_defined (e : value) (k : string) :
  get_member e k <> VUndefined -> read_member e k = Fulfilled (get_member e k).
Proof.
  destruct e; try reflexivity; intros H; exfalso; apply H; reflexivity.
Qed.

Lemma read_member_nullish (e : value) (k : string) :
  nullish e = false -> read_member e k = Fulfilled (get_member e k).
Proof.
  destruct e; try reflexivity; discriminate.
Qed.

(** C7.  [resolveId] returns the internal id exactly for the specifier
    [virtual:bookemoji] and [null] for every other string; whatever id it
    returns is the internal one. *)
Theorem resolveId_exactly_virtual (source : string) :
  (resolveId source = Some resolvedVirtualModuleId <-> source = "virtual:bookemoji")
  /\ (resolveId source = None <-> source <> "virtual:bookemoji")
  /\ (forall r, resolveId source = Some r ->
        r = String NUL "virtual:bookemoji" /\ source = "virtual:bookemoji").
Proof.
  unfold resolveId, virtualModuleId.
  destruct (String.eqb_spec source "virtual:bookemoji") as [E | E].
  - split; [tauto|]. split.
    + split; [discriminate | congruence].
    + intros r H. inversion H. auto.
  - split; [split; [discriminate | congruence]|].
    split; [tauto|]. intros r H. discriminate.
Qed.

(** C9.  With no [svelte.config.js] at the root ([fs.access] rejects with
    code ENOENT) configuration resolution ends without an exception, the
    glob stays the built-in default, no plugin configuration is recorded so
    the base read by [load] is the empty string, one line goes to
    [console.error] and none to [console.warn]. *)
Theorem configResolved_no_config_file
    (options : option BookEmojiPluginOptions) (rc : ResolvedConfig) (e : value) :
  get_member e "code" = VString "ENOENT" ->
  exists st,
    configResolved options rc (access_rejects e) initial_closure = (Fulfilled tt, st)
    /\ userGlobPattern st = "./books/stories/**/*.book.svelte"
    /\ bookEmojiConfig st = None
    /\ base_or_empty (bookEmojiConfig st) = ""
    /\ projectRoot st = Some (root rc)
    /\ In (mkLine console_error
             [VString plugin_prefix; VString "svelte.config.js not found."])
          (console st)
    /\ (forall l, In l (console st) -> method l <> console_warn).
Proof.
  intros Hcode.
  assert (Hread : read_member e "code" = Fulfilled (VString "ENOENT")).
  { rewrite read_member_defined; rewrite Hcode; [reflexivity | discriminate]. }
  unfold configResolved, bind, try_catch, set_root, throw, evaluate, initial_closure.
  cbn -[get_member read_member log].
  destruct (log_debug_run options [VString "projectRoot"; VString (root rc)]
              (mkClosure (Some rc) None default_glob (Some (root rc)) []))
    as (ls1 & E1 & F1).
  rewrite E1. cbn -[get_member read_member log].
  match goal with
  | |- context [log options debug_level ?a ?s] =>
      destruct (log_debug_run options a s) as (ls2 & E2 & F2)
  end.
  rewrite E2. cbn -[get_member read_member log].
  rewrite Hread. cbn.
  eexists. split; [reflexivity|]. cbn.
  repeat split; auto.
  - rewrite !in_app_iff. right. left. reflexivity.
  - intros l Hl. rewrite !in_app_iff in Hl.
    rewrite Forall_forall in F1, F2.
    destruct Hl as [[Hl | Hl] | [Hl | []]].
    + rewrite (F1 _ Hl). discriminate.
    + rewrite (F2 _ Hl). discriminate.
    + subst l. discriminate.
Qed.

Lemma configResolved_no_config_file_witness :
  exists st,
    configResolved None (mkResolvedConfig "/srv/app" serve)
      (access_rejects (VObject [("code", VString "ENOENT")])) initial_closure
    = (Fulfilled tt, st)
    /\ userGlobPattern st = "./books/stories/**/*.book.svelte"
    /\ bookEmojiConfig st = None
    /\ base_or_empty (bookEmojiConfig st) = ""
    /\ projectRoot st = Some "/srv/app"
    /\ In (mkLine console_error
             [VString plugin_prefix; VString "svelte.config.js not found."])
          (console st)
    /\ (forall l, In l (console st) -> method l <> console_warn).
Proof.
  apply (configResolved_no_config_file None (mkResolvedConfig "/srv/app" serve)
           (VObject [("code", VString "ENOENT")])).
  reflexivity.
Defined.

(* ================================================================== *)
(** * Properties: the reader reads what the synthesizer writes *)
(* ================================================================== *)

Module ReaderFacts.

Import ModuleReader.

Lemma append_assoc (a b c : string) : (a ++ b) ++ c = a ++ (b ++ c).
Proof. induction a; simpl; congruence. Qed.

Lemma append_nil_r (a : string) : a ++ "" = a.
Proof. induction a; simpl; congruence. Qed.

Lemma length_append (a b : string) :
  String.length (a ++ b) = (String.length a + String.length b)%nat.
Proof. induction a; simpl; congruence. Qed.

Lemma skip_ws_app (pre t : string) :
  all_ws pre = true -> skip_ws (pre ++ t) = skip_ws t.
Proof.
  induction pre as [|c pre IH]; simpl; [reflexivity|].
  intros H. apply andb_true_iff in H as [Hc Hpre].
  rewrite Hc. auto.
Qed.

Lemma plain_char_inv (q c : ascii) :
  plain_char q c = true ->
  Ascii.eqb c q = false /\ Ascii.eqb c LF = false
  /\ Ascii.eqb c CR = false /\ Ascii.eqb c backslash = false.
Proof.
  unfold plain_char. rewrite negb_true_iff, !orb_false_iff. tauto.
Qed.

(** A safe string between quotes is read back as it is. *)
Lemma read_literal_body_safe (q : ascii) (s rest : string) :
  literal_safe q s = true ->
  read_literal_body q (s ++ String q rest) = Some (s, rest).
Proof.
  induction s as [|c s IH]; simpl.
  - intros _. now rewrite Ascii.eqb_refl.
  - intros H. apply andb_true_iff in H as [Hc Hs].
    apply plain_char_inv in Hc as (H1 & H2 & H3 & H4).
    rewrite H1, H2, H3, H4, (IH Hs). reflexivity.
Qed.

Lemma expect_close_not_comma (t rest : string) :
  expect "}" t = Some rest -> expect "," t = None.
Proof.
  destruct t as [|c t]; cbn [expect]; [discriminate|].
  destruct (Ascii.eqb_spec "}"%char c) as [<-|]; [reflexivity | discriminate].
Qed.

Section OneProperty.
Context {A : Type} (read_value : string -> option (A * string)).

(** Reading one property [ "k": <value> ] and going on. *)
Lemma read_props_cons (n : nat) (pre k vt post : string) (v : A) :
  all_ws pre = true ->
  literal_safe dquote k = true ->
  skip_ws (vt ++ post) = vt ++ post ->
  read_value (vt ++ post) = Some (v, post) ->
  read_props read_value (S n)
    (pre ++ String dquote (k ++ String dquote (String ":" (String " " (vt ++ post)))))
  = match expect "," (skip_ws post) with
    | Some t5 =>
        match read_props read_value n t5 with
        | Some (ps, r) => Some ((k, v) :: ps, r)
        | None => None
        end
    | None =>
        match expect "}" (skip_ws post) with
        | Some r => Some ([(k, v)], r)
        | None => None
        end
    end.
Proof.
  intros Hpre Hk Hws Hv.
  cbn [read_props]. rewrite (skip_ws_app _ _ Hpre).
  cbn [skip_ws is_ws]. cbn.
  rewrite (read_literal_body_safe dquote k _ Hk).
  cbn. rewrite Hws, Hv. reflexivity.
Qed.
End OneProperty.

Lemma read_import_commented (f post : string) :
  literal_safe squote f = true ->
  read_import (import_commented f ++ post) = Some (f, post).
Proof.
  intros Hf. unfold import_commented, read_import.
  rewrite !append_assoc. cbn.
  rewrite (read_literal_body_safe squote f _ Hf). reflexivity.
Qed.

Lemma read_import_plain (a post : string) :
  literal_safe dquote a = true ->
  read_import (import_plain a ++ post) = Some (a, post).
Proof.
  intros Ha. unfold import_plain, read_import, dq.
  rewrite !append_assoc. cbn.
  rewrite (read_literal_body_safe dquote a _ Ha). reflexivity.
Qed.

Lemma join_cons (sep x : string) (xs : list string) (tail : string) :
  join (x :: xs) sep ++ tail = x ++ opt_sep sep xs ++ join xs sep ++ tail.
Proof.
  unfold join. destruct xs as [|y ys]; cbn [String.concat opt_sep].
  - reflexivity.
  - now rewrite !append_assoc.
Qed.

Lemma stories_text_cons (f : string) (fs : list string) (tail : string) :
  join (entries (f :: fs)) nl ++ tail
  = String dquote (f ++ String dquote (String ":" (String " "
      (import_commented f ++
       ", " ++ opt_sep nl (entries fs) ++ join (entries fs) nl ++ tail)))).
Proof.
  unfold entries. cbn [map]. rewrite join_cons.
  unfold stories_entry, import_commented, dq.
  rewrite ?append_assoc. cbn. rewrite ?append_assoc. reflexivity.
Qed.

Lemma all_ws_opt_sep_nl (xs : list string) :
  all_ws (String " " (opt_sep nl xs)) = true.
Proof. destruct xs; reflexivity. Qed.

Lemma read_stories_props (files : list string) :
  forall (pre tail rest : string) (n : nat),
    forallb path_safe files = true ->
    all_ws pre = true ->
    (List.length files < n)%nat ->
    expect "}" (skip_ws tail) = Some rest ->
    read_props read_import n (pre ++ join (entries files) nl ++ tail)
    = Some (map (fun f => (f, f)) files, rest).
Proof.
  induction files as [|f fs IH]; intros pre tail rest n Hsafe Hpre Hn Htail.
  - destruct n as [|n]; [inversion Hn|].
    cbn [entries map join String.concat read_props].
    change ("" ++ tail) with tail.
    rewrite (skip_ws_app _ _ Hpre), Htail. reflexivity.
  - destruct n as [|n]; [inversion Hn|].
    cbn [forallb] in Hsafe. apply andb_true_iff in Hsafe as [Hf Hfs].
    unfold path_safe in Hf. apply andb_true_iff in Hf as [Hd Hs].
    rewrite stories_text_cons.
    rewrite (read_props_cons read_import n pre f (import_commented f) _ f Hpre Hd);
      [ | reflexivity | now apply read_import_commented ].
    cbn [append skip_ws is_ws expect]. cbn.
    change (String " " (opt_sep nl (entries fs) ++ join (entries fs) nl ++ tail))
      with (String " " (opt_sep nl (entries fs)) ++ join (entries fs) nl ++ tail).
    rewrite (IH _ tail rest n Hfs (all_ws_opt_sep_nl _)); [reflexivity | | exact Htail].
    cbn [List.length] in Hn. lia.
Qed.

(** ** The [map] and [record] literals: entries joined by a comma and a line break *)

Lemma after_comma (t : string) :
  expect "," (skip_ws (("," ++ nl) ++ t)) = Some (nl ++ t).
Proof. reflexivity. Qed.

Section CommaSeparated.
Context {A : Type} (read_value : string -> option (A * string)).
Variable value_text : string -> string.
Variable value_of : string -> A.
Variable value_ok : string -> bool.

Hypothesis read_value_text : forall a post,
    value_ok a = true ->
    skip_ws (value_text a ++ post) = value_text a ++ post
    /\ read_value (value_text a ++ post) = Some (value_of a, post).

Lemma property_text_cons (a : string) (xs : list string) (tail : string) :
  join (map (property_text value_text) (a :: xs)) ("," ++ nl) ++ tail
  = String dquote (a ++ String dquote (String ":" (String " "
      (value_text a ++
       opt_sep ("," ++ nl) (map (property_text value_text) xs)
       ++ join (map (property_text value_text) xs) ("," ++ nl) ++ tail)))).
Proof.
  cbn [map]. rewrite join_cons. unfold property_text at 1. unfold dq.
  rewrite ?append_assoc. cbn. rewrite ?append_assoc. reflexivity.
Qed.

Lemma read_comma_separated (files : list string) :
  forall (pre tail rest : string) (n : nat),
    forallb (fun a => literal_safe dquote a && value_ok a) files = true ->
    all_ws pre = true ->
    (List.length files < n)%nat ->
    expect "}" (skip_ws tail) = Some rest ->
    read_props read_value n
      (pre ++ join (map (property_text value_text) files) ("," ++ nl) ++ tail)
    = Some (map (fun a => (a, value_of a)) files, rest).
Proof.
  induction files as [|a xs IH]; intros pre tail rest n Hsafe Hpre Hn Htail.
  - destruct n as [|n]; [inversion Hn|].
    cbn [map join String.concat read_props].
    change ("" ++ tail) with tail.
    rewrite (skip_ws_app _ _ Hpre), Htail. reflexivity.
  - destruct n as [|n]; [inversion Hn|].
    cbn [forallb] in Hsafe. apply andb_true_iff in Hsafe as [Ha Hxs].
    apply andb_true_iff in Ha as [Hd Hok].
    rewrite property_text_cons.
    destruct (read_value_text a
                (opt_sep ("," ++ nl) (map (property_text value_text) xs)
                 ++ join (map (property_text value_text) xs) ("," ++ nl) ++ tail) Hok)
      as [Hws Hv].
    rewrite (read_props_cons read_value n pre a (value_text a) _ (value_of a)
               Hpre Hd Hws Hv).
    destruct xs as [|b ys].
    + cbn [map opt_sep join String.concat append].
      rewrite (expect_close_not_comma _ _ Htail), Htail. reflexivity.
    + remember (b :: ys) as xs eqn:Exs.
      replace (opt_sep ("," ++ nl) (map (property_text value_text) xs)) with ("," ++ nl)
        by (subst xs; reflexivity).
      rewrite after_comma.
      rewrite (IH nl tail rest n Hxs eq_refl); [reflexivity | | exact Htail].
      cbn [List.length] in Hn. lia.
Qed.
End CommaSeparated.

Lemma length_join_ge (xs : list string) (sep : string) :
  Forall (fun x => (1 <= String.length x)%nat) xs ->
  (List.length xs <= String.length (join xs sep))%nat.
Proof.
  induction 1 as [|x xs Hx _ IH]; [apply Nat.le_refl|].
  pose proof (join_cons sep x xs "") as E.
  rewrite !append_nil_r in E. rewrite E, !length_append.
  cbn [List.length]. lia.
Qed.

Lemma enough_fuel (g : string -> string) (files : list string) (sep pre tail : string) :
  (forall f, exists c r, g f = String c r) ->
  (List.length files < S (String.length (pre ++ join (map g files) sep ++ tail)))%nat.
Proof.
  intros Hg.
  assert (H : Forall (fun x => (1 <= String.length x)%nat) (map g files)).
  { apply Forall_forall. intros x Hx.
    apply in_map_iff in Hx as (f & <- & _).
    destruct (Hg f) as (c & r & ->). cbn. lia. }
  apply (length_join_ge _ sep) in H. rewrite length_map in H.
  rewrite !length_append. lia.
Qed.

Lemma path_safe_dquote (ok : string -> bool) (files : list string) :
  (forall a, literal_safe dquote a = true -> ok a = true) ->
  forallb path_safe files = true ->
  forallb (fun a => literal_safe dquote a && ok a) files = true.
Proof.
  intros Hok H. rewrite forallb_forall in *. intros a Ha.
  specialize (H a Ha). unfold path_safe in H.
  apply andb_true_iff in H as [H _]. now rewrite H, (Hok a H).
Qed.

(** ** The four statements *)

Lemma read_base_export_text (base rest : string) :
  base_safe base = true ->
  read_base_export (nl ++ "  " ++ _base base ++ rest) = Some (base, rest).
Proof.
  intros Hb. unfold read_base_export, _base, dq.
  rewrite ?append_assoc. cbn.
  rewrite (read_literal_body_safe dquote base _ Hb). reflexivity.
Qed.

Lemma read_stories_export_text (files : list string) (rest : string) :
  forallb path_safe files = true ->
  read_stories_export (nl ++ "  " ++ _stories files ++ rest)
  = Some (map (fun f => (f, f)) files, rest).
Proof.
  intros Hf. unfold read_stories_export, _stories.
  rewrite ?append_assoc.
  change (expect "export const stories = "
            (skip_ws (nl ++ "  " ++ "export const stories = {" ++ nl ++ "  "
                      ++ join (entries files) nl ++ nl ++ "  };" ++ rest)))
    with (Some ("{" ++ (nl ++ "  ") ++ join (entries files) nl
                ++ nl ++ "  };" ++ rest)).
  cbv beta iota.
  change (read_object read_import
            ("{" ++ (nl ++ "  ") ++ join (entries files) nl ++ nl ++ "  };" ++ rest))
    with (read_props read_import
            (S (String.length ((nl ++ "  ") ++ join (entries files) nl
                               ++ nl ++ "  };" ++ rest)))
            ((nl ++ "  ") ++ join (entries files) nl ++ nl ++ "  };" ++ rest)).
  rewrite (read_stories_props files (nl ++ "  ") (nl ++ "  };" ++ rest)
             (";" ++ rest) _ Hf eq_refl); [reflexivity | | reflexivity].
  apply (enough_fuel stories_entry). intros f. unfold stories_entry. cbn. eauto.
Qed.

Lemma read_map_statement_text (files : list string) (rest : string) :
  forallb path_safe files = true ->
  read_map_statement
    (nl ++ "  " ++
     "export const loadStories = async () => {" ++ nl ++
     "    " ++ nl ++
     "    // this map lets our imports be statically analyzed" ++ nl ++
     "    const map = {" ++ nl ++
     "      " ++ join (map map_entry files) ("," ++ nl) ++ nl ++
     "    };" ++ rest)
  = Some (map (fun a => (a, a)) files, rest).
Proof.
  intros Hf. unfold read_map_statement.
  match goal with
  | |- context [expect "export const loadStories = async () => {" ?t] =>
      change (expect "export const loadStories = async () => {" t)
        with (Some (nl ++ "    " ++ nl ++
                    "    // this map lets our imports be statically analyzed" ++ nl ++
                    "    const map = {" ++ nl ++
                    "      " ++ join (map map_entry files) ("," ++ nl) ++ nl ++
                    "    };" ++ rest))
  end.
  cbv beta iota.
  match goal with
  | |- context [expect "const map = " ?t] =>
      change (expect "const map = " t)
        with (Some ("{" ++ (nl ++ "      ")
                    ++ join (map (property_text import_plain) files) ("," ++ nl)
                    ++ nl ++ "    };" ++ rest))
  end.
  cbv beta iota.
  match goal with
  | |- context [read_object read_import ?t] =>
      change (read_object read_import t)
        with (read_props read_import
                (S (String.length
                      ((nl ++ "      ")
                       ++ join (map (property_text import_plain) files) ("," ++ nl)
                       ++ nl ++ "    };" ++ rest)))
                ((nl ++ "      ")
                 ++ join (map (property_text import_plain) files) ("," ++ nl)
                 ++ nl ++ "    };" ++ rest))
  end.
  rewrite (read_comma_separated read_import import_plain (fun a => a)
             (literal_safe dquote))
    with (rest := ";" ++ rest);
    [reflexivity | | | reflexivity | | reflexivity].
  - intros a post Ha. split; [reflexivity | now apply read_import_plain].
  - now apply path_safe_dquote.
  - apply (enough_fuel (property_text import_plain)).
    intros f. unfold property_text. cbn. eauto.
Qed.

Lemma read_record_statement_text (files : list string) (rest : string) :
  forallb path_safe files = true ->
  read_record_statement
    (nl ++ nl ++
     "    const record = {" ++ nl ++
     "      " ++ join (map record_entry files) ("," ++ nl) ++ nl ++
     "    }" ++ rest)
  = Some (map (fun a => (a, tt)) files, rest).
Proof.
  intros Hf. unfold read_record_statement.
  match goal with
  | |- context [expect "const record = " ?t] =>
      change (expect "const record = " t)
        with (Some ("{" ++ (nl ++ "      ")
                    ++ join (map (property_text (fun _ => "null")) files) ("," ++ nl)
                    ++ nl ++ "    }" ++ rest))
  end.
  cbv beta iota.
  match goal with
  | |- context [read_object read_null ?t] =>
      change (read_object read_null t)
        with (read_props read_null
                (S (String.length
                      ((nl ++ "      ")
                       ++ join (map (property_text (fun _ => "null")) files) ("," ++ nl)
                       ++ nl ++ "    }" ++ rest)))
                ((nl ++ "      ")
                 ++ join (map (property_text (fun _ => "null")) files) ("," ++ nl)
                 ++ nl ++ "    }" ++ rest))
  end.
  apply (read_comma_separated read_null (fun _ => "null") (fun _ => tt)
           (fun _ => true)).
  - intros a post _. split; reflexivity.
  - apply path_safe_dquote; auto.
  - reflexivity.
  - apply (enough_fuel (property_text (fun _ => "null"))).
    intros f. unfold property_text. cbn. eauto.
  - reflexivity.
Qed.

(** The text the synthesizer writes after the [record] literal is the
    loader's statements, and nothing but white space follows. *)
Lemma read_loader_statements_text :
  read_loader_statements (loadStories_tail ++ nl ++ "  ") = Some (nl ++ "  ").
Proof. vm_compute. reflexivity. Qed.

Lemma read_exports_after_base_text (files : list string) :
  forallb path_safe files = true ->
  read_exports_after_base (text_after_base files)
  = Some (map (fun f => (f, f)) files,
          map (fun a => (a, a)) files,
          map (fun a => (a, tt)) files).
Proof.
  intros Hfiles. unfold read_exports_after_base, text_after_base.
  rewrite (read_stories_export_text files _ Hfiles).
  rewrite (read_map_statement_text files _ Hfiles).
  rewrite (read_record_statement_text files _ Hfiles).
  rewrite read_loader_statements_text. reflexivity.
Qed.

Lemma createExportStatements_statements (base : string) (files : list string) :
  createExportStatements base files
  = nl ++ "  " ++ _base base ++ text_after_base files.
Proof.
  unfold createExportStatements, _loadStories, text_after_base.
  rewrite ?append_assoc. reflexivity.
Qed.

Lemma read_module_synthesized (base : string) (files : list string) :
  base_safe base = true ->
  forallb path_safe files = true ->
  read_module (createExportStatements base files) = Some (synthesized base files).
Proof.
  intros Hbase Hfiles.
  rewrite createExportStatements_statements. unfold read_module.
  rewrite (read_base_export_text base _ Hbase).
  now rewrite (read_exports_after_base_text files Hfiles).
Qed.

End ReaderFacts.

(* ================================================================== *)
(** * Properties: objects and the settling of the loaders *)
(* ================================================================== *)

Module ObjectFacts.

Section Objects.
Context {V : Type}.
Implicit Types (o : JsObject V) (k : string) (v : V).

Lemma obj_get_set_same o k v : obj_get (obj_set o k v) k = Some v.
Proof.
  induction o as [|[k' v'] o IH]; cbn.
  - now rewrite String.eqb_refl.
  - destruct (String.eqb_spec k' k) as [->|N]; cbn.
    + now rewrite String.eqb_refl.
    + apply String.eqb_neq in N. now rewrite N.
Qed.

Lemma obj_get_set_other o k k' v :
  k <> k' -> obj_get (obj_set o k v) k' = obj_get o k'.
Proof.
  intros N. induction o as [|[k0 v0] o IH]; cbn.
  - apply String.eqb_neq in N. now rewrite N.
  - destruct (String.eqb_spec k0 k) as [->|N0]; cbn.
    + apply String.eqb_neq in N. now rewrite N.
    + now rewrite IH.
Qed.

Lemma obj_get_in_keys o k v : obj_get o k = Some v -> In k (keys o).
Proof.
  induction o as [|[k' v'] o IH]; cbn; [discriminate|].
  destruct (String.eqb_spec k' k); auto.
Qed.

Lemma obj_get_not_in_keys o k : ~ In k (keys o) -> obj_get o k = None.
Proof.
  induction o as [|[k' v'] o IH]; cbn; [reflexivity|].
  intros N. destruct (String.eqb_spec k' k); tauto.
Qed.

Lemma in_keys_set o k v k' :
  In k' (keys (obj_set o k v)) <-> In k' (keys o) \/ k' = k.
Proof.
  induction o as [|[k0 v0] o IH]; cbn.
  - intuition congruence.
  - destruct (String.eqb_spec k0 k) as [->|N]; cbn.
    + intuition congruence.
    + rewrite IH. tauto.
Qed.

Lemma NoDup_keys_set o k v : NoDup (keys o) -> NoDup (keys (obj_set o k v)).
Proof.
  induction o as [|[k0 v0] o IH]; cbn; intros H.
  - repeat constructor. intros [].
  - inversion H as [|? ? Hk0 Hnd]; subst.
    destruct (String.eqb_spec k0 k) as [->|N]; cbn.
    + now constructor.
    + constructor; [|now apply IH].
      fold (keys (obj_set o k v)). rewrite in_keys_set.
      intros [Hin | E]; [now apply Hk0 | congruence].
Qed.

Lemma obj_get_lookup o k v :
  NoDup (keys o) -> In (k, v) o -> obj_get o k = Some v.
Proof.
  induction o as [|[k' v'] o IH]; cbn; [tauto|].
  intros Hnd [E | Hin].
  - inversion E; subst. now rewrite String.eqb_refl.
  - inversion Hnd as [|? ? Hk' Hnd']; subst.
    destruct (String.eqb_spec k' k) as [->|N].
    + exfalso. apply Hk'. change (In (fst (k, v)) (map fst o)).
      now apply in_map.
    + auto.
Qed.

(** ** Object literals whose values depend on the key only *)

Variable g : string -> V.

Lemma literal_fold (files : list string) :
  forall o,
    NoDup (keys o) ->
    (forall k v, obj_get o k = Some v -> v = g k) ->
    let o' := fold_left define_property (map (fun a => (a, g a)) files) o in
    NoDup (keys o')
    /\ (forall k v, obj_get o' k = Some v -> v = g k)
    /\ (forall k, In k (keys o') <->
                  In k (keys o) \/ (In k files /\ k <> "__proto__")).
Proof.
  induction files as [|a files IH]; intros o Hnd Hval; cbn [map fold_left].
  - split; [assumption|]. split; [assumption|]. intros k. cbn. tauto.
  - assert (E : define_property o (a, g a)
                = if String.eqb a "__proto__" then o else obj_set o a (g a))
      by reflexivity.
    rewrite E. clear E. cbn zeta.
    destruct (String.eqb_spec a "__proto__") as [->|Na].
    + destruct (IH o Hnd Hval) as (H1 & H2 & H3).
      split; [assumption|]. split; [assumption|].
      intros k. rewrite H3. cbn [In]. intuition congruence.
    + destruct (IH (obj_set o a (g a))) as (H1 & H2 & H3).
      * now apply NoDup_keys_set.
      * intros k v. destruct (string_dec a k) as [<-|N].
        -- rewrite obj_get_set_same. congruence.
        -- rewrite (obj_get_set_other _ _ _ _ N). apply Hval.
      * split; [assumption|]. split; [assumption|].
        intros k. rewrite H3, in_keys_set. cbn [In]. intuition congruence.
Qed.

Lemma object_literal_keyed (files : list string) :
  let o := object_literal (map (fun a => (a, g a)) files) in
  NoDup (keys o)
  /\ (forall k v, In (k, v) o -> v = g k)
  /\ (forall k, In k (keys o) <-> In k files /\ k <> "__proto__")
  /\ (forall k, In k files -> k <> "__proto__" -> obj_get o k = Some (g k)).
Proof.
  destruct (literal_fold files []) as (H1 & H2 & H3).
  - constructor.
  - intros k v. cbn. discriminate.
  - cbn. fold (object_literal (map (fun a => (a, g a)) files)) in H1, H2, H3.
    assert (H4 : forall k v,
               In (k, v) (object_literal (map (fun a => (a, g a)) files)) ->
               v = g k).
    { intros k v Hin. apply H2. now apply obj_get_lookup. }
    assert (H5 : forall k,
               In k (keys (object_literal (map (fun a => (a, g a)) files)))
               <-> In k files /\ k <> "__proto__").
    { intros k. rewrite H3. cbn. tauto. }
    split; [assumption|]. split; [assumption|]. split; [assumption|].
    intros k Hk Hp.
    assert (Hin : In k (keys (object_literal (map (fun a => (a, g a)) files))))
      by (apply H5; tauto).
    unfold keys in Hin. apply in_map_iff in Hin as ([k' v] & E & Hin).
    cbn in E. subst k'. rewrite (obj_get_lookup _ _ _ H1 Hin).
    f_equal. now apply H4.
Qed.
End Objects.

End ObjectFacts.

(* ================================================================== *)
(** * Properties: the synthesized [loadStories] *)
(* ================================================================== *)

Module LoadStoriesFacts.

Import ModuleReader LoadStories ObjectFacts ReaderFacts.

Lemma nullish_default (mod_ : value) :
  nullish_coalesce (get_member mod_ "default") mod_ = default_or_self mod_.
Proof.
  unfold get_member, default_or_self.
  destruct (obj_get (own_properties mod_) "default") as [[ | | b | n | s | q | q]|];
    reflexivity.
Qed.

(** What [loadStories] returns is the record, fulfilled. *)
Lemma finish_some (imports : string -> settled value) (m : ModuleText)
    (record : JsObject value) (r : settled (JsObject value)) :
  finish imports m record = Some r -> r = Fulfilled record.
Proof.
  unfold finish, resolve_with. cbn [Promise_allSettled].
  destruct (callable _); congruence.
Qed.

(** The run in entry order is one of the runs. *)
Lemma settle_in_order_settles (l : list (string * settled value)) :
  forall record, settles_to l record (settle_in_order l record).
Proof.
  induction l as [|[key loader] l IH]; intros record; cbn.
  - constructor.
  - apply (settles_pick [] key loader l). cbn. apply IH.
Qed.

Lemma on_settled_other (key a : string) (loader : settled value)
    (record : JsObject value) :
  key <> a -> obj_get (on_settled key loader record) a = obj_get record a.
Proof.
  intros N. destruct loader as [mod_|e]; cbn [on_settled]; [|reflexivity].
  destruct (read_member mod_ "default"); [now apply obj_get_set_other | reflexivity].
Qed.

Lemma on_settled_same (key : string) (loader : settled value)
    (record : JsObject value) :
  obj_get record key = Some VNull ->
  obj_get (on_settled key loader record) key
  = Some (story_value default_or_self loader).
Proof.
  intros H. destruct loader as [mod_|e]; cbn [on_settled story_value]; [|exact H].
  destruct (nullish mod_) eqn:N.
  - destruct mod_; try discriminate; exact H.
  - rewrite (read_member_nullish _ _ N).
    now rewrite obj_get_set_same, nullish_default.
Qed.

Lemma on_settled_keys (key : string) (loader : settled value)
    (record : JsObject value) (k : string) :
  In key (keys record) ->
  (In k (keys (on_settled key loader record)) <-> In k (keys record)).
Proof.
  intros Hkey. destruct loader as [mod_|e]; cbn [on_settled]; [|tauto].
  destruct (read_member mod_ "default"); [|tauto].
  rewrite in_keys_set. intuition congruence.
Qed.

Section Settling.
Variable imports : string -> settled value.
Variable files : list string.

Lemma settles_to_final (pending : list (string * settled value))
    (record record' : JsObject value) :
  settles_to pending record record' ->
  NoDup (map fst pending) ->
  (forall k p, In (k, p) pending -> p = imports k) ->
  partly_settled imports files pending record ->
  forall a, In a files ->
    obj_get record' a = Some (story_value default_or_self (imports a)).
Proof.
  induction 1 as [record | l1 key loader l2 record record' _ IH];
    intros Hnd Hval Hinv a Ha.
  - destruct (Hinv a Ha) as [[[] _] | [_ E]]. exact E.
  - rewrite map_app in Hnd. cbn [map fst] in Hnd.
    pose proof (NoDup_remove_1 _ _ _ Hnd) as Hnd'.
    pose proof (NoDup_remove_2 _ _ _ Hnd) as Hkey.
    rewrite <- map_app in Hnd', Hkey.
    assert (Hloader : loader = imports key).
    { apply Hval. apply in_elt. }
    apply IH; auto.
    + intros k p Hin. apply Hval. apply in_app_iff in Hin.
      apply in_app_iff. cbn. tauto.
    + intros b Hb. destruct (string_dec key b) as [<-|N].
      * right. split; [assumption|].
        destruct (Hinv key Hb) as [[_ E] | [Hnot _]].
        -- rewrite (on_settled_same _ _ _ E). now rewrite Hloader.
        -- exfalso. apply Hnot. rewrite map_app. cbn.
           apply in_app_iff. cbn. tauto.
      * rewrite (on_settled_other _ _ _ _ N).
        destruct (Hinv b Hb) as [[Hin E] | [Hnot E]].
        -- left. split; [|assumption].
           rewrite map_app in Hin |- *. cbn in Hin.
           apply in_app_iff in Hin. apply in_app_iff.
           destruct Hin as [? | [? | ?]]; [tauto | congruence | tauto].
        -- right. split; [|assumption].
           intros Hin. apply Hnot. rewrite map_app in Hin |- *. cbn.
           apply in_app_iff in Hin. apply in_app_iff. cbn. tauto.
Qed.

End Settling.

Lemma settles_to_keys (pending : list (string * settled value))
    (record record' : JsObject value) :
  settles_to pending record record' ->
  (forall k, In k (map fst pending) -> In k (keys record)) ->
  forall k, In k (keys record') <-> In k (keys record).
Proof.
  induction 1 as [record | l1 key loader l2 record record' _ IH];
    intros Hsub k; [tauto|].
  assert (Hkey : In key (keys record)).
  { apply Hsub. rewrite map_app. apply in_app_iff. cbn. tauto. }
  rewrite IH.
  - now apply on_settled_keys.
  - intros k' Hk'. apply on_settled_keys; [assumption|].
    apply Hsub. rewrite map_app in Hk' |- *. cbn.
    apply in_app_iff in Hk'. apply in_app_iff. cbn. tauto.
Qed.

Lemma map_object_synthesized (imports : string -> settled value)
    (base : string) (files : list string) :
  map_object imports (synthesized base files)
  = object_literal (map (fun a => (a, imports a)) files).
Proof.
  unfold map_object, synthesized. cbn [m_map]. now rewrite map_map.
Qed.

Lemma record_object_synthesized (base : string) (files : list string) :
  record_object (synthesized base files)
  = object_literal (map (fun a => (a, VNull)) files).
Proof.
  unfold record_object, synthesized. cbn [m_record]. now rewrite map_map.
Qed.

(** Every way the loaders of the synthesized [loadStories] settle fills the
    record. *)
Lemma settled_record_filled (imports : string -> settled value)
    (base : string) (files : list string) (record : JsObject value) :
  ~ In "__proto__" files ->
  settles_to (Object_entries (map_object imports (synthesized base files)))
    (record_object (synthesized base files)) record ->
  (forall a, In a files ->
     obj_get record a = Some (story_value default_or_self (imports a)))
  /\ (forall k, In k (keys record) <-> In k files).
Proof.
  intros Hproto Hrun.
  unfold Object_entries in Hrun.
  rewrite map_object_synthesized, record_object_synthesized in Hrun.
  destruct (object_literal_keyed imports files) as (M1 & M2 & M3 & M4).
  destruct (object_literal_keyed (fun _ => VNull) files) as (R1 & R2 & R3 & R4).
  assert (Hne : forall a, In a files -> a <> "__proto__") by (intros a Ha ->; auto).
  split.
  - apply (settles_to_final imports files _ _ _ Hrun); auto.
    intros a Ha. left. split.
    + apply M3. auto.
    + apply R4; auto.
  - intros k. rewrite (settles_to_keys _ _ _ Hrun).
    + rewrite R3. split; [tauto | auto].
    + intros k' Hk'. apply R3. now apply M3.
Qed.

Lemma loadStories_returns_filled (imports : string -> settled value)
    (base : string) (files : list string) (r : settled (JsObject value)) :
  ~ In "__proto__" files ->
  loadStories_returns imports (synthesized base files) r ->
  exists record,
    r = Fulfilled record
    /\ (forall a, In a files ->
          obj_get record a = Some (story_value default_or_self (imports a)))
    /\ (forall k, In k (keys record) <-> In k files).
Proof.
  intros Hproto Hr. inversion Hr as [record r' Hrun Hfin E]; subst r'. clear Hr.
  exists record. split; [exact (finish_some _ _ _ _ Hfin)|].
  now apply (settled_record_filled imports base).
Qed.

(** The run in entry order gives a result of [loadStories]. *)
Lemma in_order_returns (imports : string -> settled value) (m : ModuleText)
    (r : settled (JsObject value)) :
  loadStories_in_order imports m = Some r -> loadStories_returns imports m r.
Proof.
  intros H.
  exact (returns_record imports m _ r (settle_in_order_settles _ _) H).
Qed.

(** Unless a path [then] gets a function as its value, the record is no
    thenable, and the run in entry order returns it. *)
Lemma loadStories_in_order_fulfils (imports : string -> settled value)
    (base : string) (files : list string) :
  ~ In "__proto__" files ->
  (In "then" files ->
   callable (story_value default_or_self (imports "then")) = false) ->
  exists record,
    loadStories_in_order imports (synthesized base files) = Some (Fulfilled record).
Proof.
  intros Hproto Hthen.
  exists (settle_in_order
            (Object_entries (map_object imports (synthesized base files)))
            (record_object (synthesized base files))).
  destruct (settled_record_filled imports base files _ Hproto
              (settle_in_order_settles _ _)) as (Hval & Hin).
  unfold loadStories_in_order, finish, resolve_with, get_member.
  cbn [Promise_allSettled own_properties].
  destruct (in_dec string_dec "then" files) as [Hi | Hn].
  - rewrite (Hval "then" Hi), (Hthen Hi). reflexivity.
  - rewrite obj_get_not_in_keys; [reflexivity|].
    intros H. apply Hn. now apply Hin.
Qed.

End LoadStoriesFacts.

(* ================================================================== *)
(** * The claims about the synthesized module *)
(* ================================================================== *)

Import ModuleReader LoadStories.

(** The text for the empty file list: the [base] statement followed by a
    fixed text that reads as an empty [stories], an empty [map], an empty
    [record] and the loader's statements; with a safe [base] the whole text
    reads as a module. *)
Lemma empty_module_well_formed (base : string) :
  createExportStatements base []
  = nl ++ "  " ++ "export const base = " ++ dq ++ base ++ dq ++ ";"
    ++ text_after_base []
  /\ read_exports_after_base (text_after_base []) = Some ([], [], [])
  /\ (base_safe base = true ->
      read_module (createExportStatements base [])
      = Some (mkModuleText base [] [] [])).
Proof.
  split; [|split].
  - rewrite ReaderFacts.createExportStatements_statements.
    unfold _base. now rewrite ?ReaderFacts.append_assoc.
  - vm_compute. reflexivity.
  - intros Hb. now apply (ReaderFacts.read_module_synthesized base []).
Qed.

Lemma empty_loadStories (imports : string -> settled value) (b : string)
    (r : settled (JsObject value)) :
  loadStories_returns imports (mkModuleText b [] [] []) r <-> r = Fulfilled [].
Proof.
  split.
  - intros H. inversion H as [record r' Hrun Hfin E]; subst.
    cbn in Hrun. inversion Hrun as [rec' | l1 key loader l2 ? ? ? E1]; subst.
    + vm_compute in Hfin. congruence.
    + destruct l1; discriminate.
  - intros ->. apply (returns_record imports (mkModuleText b [] [] []) []).
    + constructor.
    + reflexivity.
Qed.

(** C4, as the claim states it, fails, because base and paths are written
    between quotes as they are.  A path with a double quote ends the key
    literal early, one with a single quote ends the [import('...')] literal
    early, one with a line break breaks the literal: the text is no object
    literal.  A path with a backslash is read with its escape sequence, so
    the key is another string.  A base with a double quote, a trailing
    backslash or a line break breaks the first statement. *)
Lemma stories_keys_counterexample :
  (NoDup ["./a" ++ dq ++ "b.book.svelte"]
   /\ ~ stories_keyed_by "" ["./a" ++ dq ++ "b.book.svelte"])
  /\ (NoDup ["./a'b.book.svelte"] /\ ~ stories_keyed_by "" ["./a'b.book.svelte"])
  /\ (NoDup ["./a" ++ nl ++ "b"] /\ ~ stories_keyed_by "" ["./a" ++ nl ++ "b"])
  /\ (NoDup ["./a\b"]
      /\ read_module (createExportStatements "" ["./a\b"])
         = Some (synthesized "" [String "." (String "/" (String "a" (String "008" "")))])
      /\ ~ stories_keyed_by "" ["./a\b"])
  /\ (NoDup ["./a.book.svelte"] /\ ~ stories_keyed_by dq ["./a.book.svelte"])
  /\ (NoDup ["./a.book.svelte"] /\ ~ stories_keyed_by "\" ["./a.book.svelte"])
  /\ (NoDup ["./a.book.svelte"] /\ ~ stories_keyed_by nl ["./a.book.svelte"]).
Proof.
  assert (ND : forall x : string, NoDup [x])
    by (intros x; constructor; [intros [] | constructor]).
  assert (unreadable : forall base files,
             read_module (createExportStatements base files) = None ->
             ~ stories_keyed_by base files).
  { intros base files Hnone (m & Hread & _). congruence. }
  assert (broken : forall base f,
             read_module (createExportStatements base [f]) = None ->
             NoDup [f] /\ ~ stories_keyed_by base [f])
    by (intros base f Hnone; split; [apply ND | now apply unreadable]).
  split; [apply broken; vm_compute; reflexivity|].
  split; [apply broken; vm_compute; reflexivity|].
  split; [apply broken; vm_compute; reflexivity|].
  split; [|split; [apply broken; vm_compute; reflexivity|];
           split; apply broken; vm_compute; reflexivity].
  split; [apply ND|]. split; [vm_compute; reflexivity|].
  intros (m & Hread & Hkeys & _).
  vm_compute in Hread. inversion Hread; subst m. clear Hread.
  destruct (proj2 (Hkeys "./a\b") (or_introl eq_refl)) as [E | []].
  discriminate.
Qed.

(** C4, amended.  For every file list without duplicates whose paths hold no
    quote, backslash or line break, and every base without double quote,
    backslash or line break, the synthesized text reads as a module whose
    [stories] object has exactly the paths as its quoted keys (in the order
    of the list, none twice), each mapped to the import of that very path. *)
Theorem stories_keys_are_paths (base : string) (files : list string) :
  NoDup files ->
  base_safe base = true ->
  forallb path_safe files = true ->
  stories_keyed_by base files
  /\ (exists m,
        read_module (createExportStatements base files) = Some m
        /\ m_stories m = map (fun f => (f, f)) files
        /\ NoDup (map fst (m_stories m))).
Proof.
  intros Hnd Hbase Hfiles.
  pose proof (ReaderFacts.read_module_synthesized base files Hbase Hfiles) as Hread.
  assert (Hkeys : map fst (m_stories (synthesized base files)) = files).
  { unfold synthesized. cbn [m_stories]. rewrite map_map. cbn. apply map_id. }
  split.
  - exists (synthesized base files). split; [exact Hread|]. split.
    + intros k. now rewrite Hkeys.
    + intros k target Hin. unfold synthesized in Hin. cbn [m_stories] in Hin.
      apply in_map_iff in Hin as (f & E & _). now inversion E.
  - exists (synthesized base files). split; [exact Hread|]. split; [reflexivity|].
    now rewrite Hkeys.
Qed.

Lemma stories_keys_are_paths_witness :
  stories_keyed_by "/docs" ["./books/a.book.svelte"; "./books/b (1).book.svelte"]
  /\ (exists m,
        read_module (createExportStatements "/docs"
                       ["./books/a.book.svelte"; "./books/b (1).book.svelte"])
        = Some m
        /\ m_stories m
           = map (fun f => (f, f)) ["./books/a.book.svelte"; "./books/b (1).book.svelte"]
        /\ NoDup (map fst (m_stories m))).
Proof.
  apply (stories_keys_are_paths "/docs"
           ["./books/a.book.svelte"; "./books/b (1).book.svelte"]).
  - constructor.
    + cbn. intros [E | []]. discriminate.
    + constructor; [intros [] | constructor].
  - reflexivity.
  - reflexivity.
Defined.

(** C5, as the claim states it, fails: for a module whose default export is
    [null] the loader stores the module object, not the default export.
    And whatever is taken as the stored value: a path that is [__proto__]
    gets no entry in the returned mapping (in an object literal that key
    sets the prototype); with a path [then] whose module has a function as
    its default export the record is a thenable, and the promise of
    [loadStories] follows that function instead of fulfilling with the
    record; a path with a quote leaves no module to load stories from. *)
Lemma loadStories_default_counterexample :
  ~ loadStories_fills default_or_self_claimed
      (fun _ => Fulfilled (VObject [("default", VNull)]))
      "" ["./a.book.svelte"]
  /\ (forall stored,
        ~ loadStories_fills stored (fun _ => Rejected VUndefined) "" ["__proto__"])
  /\ (forall stored,
        ~ loadStories_fills stored
            (fun _ => Fulfilled (VObject [("default", VFunction [])])) "" ["then"])
  /\ (forall stored imports,
        ~ loadStories_fills stored imports "" ["./a" ++ dq ++ "b.book.svelte"]).
Proof.
  split; [|split; [|split]].
  - intros (m & Hread & _ & Hall).
    vm_compute in Hread. inversion Hread; subst m. clear Hread.
    match type of Hall with
    | forall r, loadStories_returns ?i ?m r -> _ =>
        destruct (loadStories_in_order i m) as [r|] eqn:Er;
          [ destruct (Hall r (LoadStoriesFacts.in_order_returns _ _ _ Er))
              as (record & E & Hrec)
          | vm_compute in Er; discriminate ]
    end.
    vm_compute in Er. subst r. inversion Er; subst record. clear Er.
    specialize (Hrec "./a.book.svelte" (or_introl eq_refl)).
    vm_compute in Hrec. discriminate.
  - intros stored (m & Hread & _ & Hall).
    vm_compute in Hread. inversion Hread; subst m. clear Hread.
    match type of Hall with
    | forall r, loadStories_returns ?i ?m r -> _ =>
        destruct (loadStories_in_order i m) as [r|] eqn:Er;
          [ destruct (Hall r (LoadStoriesFacts.in_order_returns _ _ _ Er))
              as (record & E & Hrec)
          | vm_compute in Er; discriminate ]
    end.
    vm_compute in Er. subst r. inversion Er; subst record. clear Er.
    specialize (Hrec "__proto__" (or_introl eq_refl)).
    cbn in Hrec. discriminate.
  - intros stored (m & Hread & (r & Hr) & _).
    vm_compute in Hread. inversion Hread; subst m. clear Hread.
    inversion Hr as [record r' Hrun Hfin E]; subst r'.
    assert (Hproto : ~ In "__proto__" ["then"])
      by (intros [E | []]; discriminate).
    destruct (LoadStoriesFacts.settled_record_filled _ "" ["then"] record Hproto Hrun)
      as (Hval & _).
    specialize (Hval "then" (or_introl eq_refl)).
    unfold finish, resolve_with, get_member in Hfin.
    cbn [Promise_allSettled own_properties] in Hfin.
    rewrite Hval in Hfin. cbn in Hfin. discriminate.
  - intros stored imports (m & Hread & _).
    vm_compute in Hread. discriminate.
Qed.

(** C5, amended.  For every base and file list that can be written between
    quotes as they are, no path being [__proto__] and none being a path
    [then] that gets a function as its value, and every way the imports
    settle, [loadStories] returns, every run of it ends in a fulfilled
    promise, and the mapping holds for every path [null] if its import
    rejected (or fulfilled with [null] or [undefined]) and otherwise the
    module's default export, the module object standing in when the default
    export is missing, [null] or [undefined]. *)
Theorem loadStories_fills_record (imports : string -> settled value)
    (base : string) (files : list string) :
  base_safe base = true ->
  forallb path_safe files = true ->
  ~ In "__proto__" files ->
  (In "then" files ->
   callable (story_value default_or_self (imports "then")) = false) ->
  loadStories_fills default_or_self imports base files.
Proof.
  intros Hbase Hfiles Hproto Hthen.
  exists (synthesized base files).
  split; [now apply ReaderFacts.read_module_synthesized|]. split.
  - destruct (LoadStoriesFacts.loadStories_in_order_fulfils imports base files
                Hproto Hthen) as (record & E).
    exists (Fulfilled record). now apply LoadStoriesFacts.in_order_returns.
  - intros r Hr.
    destruct (LoadStoriesFacts.loadStories_returns_filled imports base files r
                Hproto Hr) as (record & E & Hrec & _).
    exists record. auto.
Qed.

Lemma loadStories_fills_record_witness :
  loadStories_fills default_or_self
    (fun a => if String.eqb a "./b.book.svelte"
              then Rejected (VString "no such module")
              else Fulfilled (VObject [("default", VString a)]))
    "" ["./a.book.svelte"; "./b.book.svelte"].
Proof.
  apply loadStories_fills_record.
  - reflexivity.
  - reflexivity.
  - cbn. intros [E | [E | []]]; discriminate.
  - reflexivity.
Defined.

(** C6, as the claim states it, fails for some bases: the base is written
    between double quotes as it is, so with a base that is a double quote,
    a backslash or a line break the text for the empty file list is no
    module at all. *)
Lemma empty_file_list_counterexample :
  read_module (createExportStatements dq []) = None
  /\ (forall imports, ~ empty_module_loads_nothing imports dq)
  /\ (forall imports, ~ empty_module_loads_nothing imports "\")
  /\ (forall imports, ~ empty_module_loads_nothing imports nl).
Proof.
  split; [vm_compute; reflexivity|].
  split; [|split]; intros imports (m & Hread & _);
    vm_compute in Hread; discriminate.
Qed.

(** C6, amended.  For the empty file list and every base without double
    quote, backslash or line break, the text reads as a module with the
    three exports, [base] being the given one and [stories], [map] and
    [record] being empty literals followed by the loader's statements, and
    its [loadStories] returns a fulfilled promise of the empty mapping and
    nothing else, whatever the imports would do. *)
Theorem empty_file_list (imports : string -> settled value) (base : string) :
  base_safe base = true ->
  empty_module_loads_nothing imports base
  /\ read_module (createExportStatements base []) = Some (mkModuleText base [] [] [])
  /\ loadStories_of_text imports (createExportStatements base []) = Some (Fulfilled []).
Proof.
  intros Hbase.
  pose proof (ReaderFacts.read_module_synthesized base [] Hbase eq_refl) as Hread.
  change (synthesized base []) with (mkModuleText base [] [] []) in Hread.
  split; [|split].
  - exists (mkModuleText base [] [] []).
    split; [exact Hread|].
    split; [reflexivity|]. split; [reflexivity|]. split; [reflexivity|].
    split; [now apply empty_loadStories|].
    intros r. apply empty_loadStories.
  - exact Hread.
  - unfold loadStories_of_text. rewrite Hread. reflexivity.
Qed.

Lemma empty_file_list_witness :
  empty_module_loads_nothing (fun _ => Rejected VUndefined) "/docs"
  /\ read_module (createExportStatements "/docs" [])
     = Some (mkModuleText "/docs" [] [] [])
  /\ loadStories_of_text (fun _ => Rejected VUndefined)
       (createExportStatements "/docs" [])
     = Some (Fulfilled []).
Proof.
  apply (empty_file_list (fun _ => Rejected VUndefined) "/docs").
  reflexivity.
Defined.

(* ================================================================== *)
(** * The claims about the glob normalizer *)
(* ================================================================== *)

Module GlobFacts.

Lemma replaceAll_char (c : ascii) (rep s : string) :
  replaceAll s (String c "") rep = subst_char c rep s.
Proof.
  unfold replaceAll.
  induction s as [|d r IH]; [reflexivity|].
  cbn [replaceAll_from String.prefix String.length Nat.pred subst_char].
  destruct (Ascii.ascii_dec c d) as [<-|N].
  - rewrite Ascii.eqb_refl.
    replace (String.prefix "" r) with true by (destruct r; reflexivity).
    now rewrite IH.
  - assert (E : Ascii.eqb d c = false) by (apply Ascii.eqb_neq; congruence).
    now rewrite E, IH.
Qed.

(** The two replacements together are the escaping the spec describes. *)
Lemma replace_both_parens (s : string) :
  replaceAll (replaceAll s "(" (String backslash "(")) ")" (String backslash ")")
  = escape_parens_spec s.
Proof.
  rewrite !replaceAll_char.
  induction s as [|d r IH]; [reflexivity|].
  cbn [escape_parens_spec subst_char]. unfold is_paren.
  destruct (Ascii.eqb_spec d "("%char) as [->|N1].
  - cbn [orb append]. cbn [subst_char].
    change (Ascii.eqb backslash ")") with false.
    change (Ascii.eqb "(" ")") with false.
    cbv beta iota. now rewrite IH.
  - cbn [orb subst_char].
    destruct (Ascii.eqb_spec d ")"%char) as [->|N2]; cbn [append]; now rewrite IH.
Qed.

Lemma unescape_backslash_kept (c : ascii) (t : string) :
  is_paren c = false ->
  unescape_parens (String backslash (String c t))
  = String backslash (unescape_parens (String c t)).
Proof.
  intros H. cbn [unescape_parens]. now rewrite Ascii.eqb_refl, H.
Qed.

Lemma unescape_escape (s : string) :
  unescape_parens (escape_parens_spec s) = s.
Proof.
  induction s as [|c r IH]; [reflexivity|].
  cbn [escape_parens_spec].
  destruct (is_paren c) eqn:Hc.
  - cbn [unescape_parens]. rewrite Ascii.eqb_refl, Hc, IH. reflexivity.
  - destruct (Ascii.eqb_spec c backslash) as [->|N].
    + destruct r as [|d r']; [reflexivity|].
      cbn [escape_parens_spec] in IH |- *.
      destruct (is_paren d) eqn:Hd.
      * rewrite unescape_backslash_kept by reflexivity. now rewrite IH.
      * rewrite unescape_backslash_kept by exact Hd. now rewrite IH.
    + cbn [unescape_parens]. apply Ascii.eqb_neq in N. now rewrite N, IH.
Qed.

End GlobFacts.

(** C2, as the claim states it, fails: the pattern is normalized as a POSIX
    path first, which here drops the leading [./]. *)
Lemma glob_normalize_counterexample :
  includes "./a(b)/x" "(" = true
  /\ glob_normalize "./a(b)/x" = "a\(b\)/x"
  /\ glob_normalize "./a(b)/x" <> escape_parens_spec "./a(b)/x".
Proof.
  split; [reflexivity|]. split; [vm_compute; reflexivity|].
  vm_compute. discriminate.
Qed.

(** C2, amended.  The pattern handed to fast-glob is the POSIX-normalized
    pattern with every parenthesis preceded by a backslash and nothing else
    changed: taking those backslashes away gives the normalized pattern
    back, and a pattern that normalization leaves alone only gets its
    parentheses escaped. *)
Theorem glob_normalize_escapes (p : string) :
  glob_normalize p = escape_parens_spec (NodePath.normalize p)
  /\ unescape_parens (glob_normalize p) = NodePath.normalize p
  /\ (NodePath.normalize p = p -> glob_normalize p = escape_parens_spec p).
Proof.
  assert (E : glob_normalize p = escape_parens_spec (NodePath.normalize p))
    by apply GlobFacts.replace_both_parens.
  split; [exact E|]. split.
  - rewrite E. apply GlobFacts.unescape_escape.
  - intros H. now rewrite E, H.
Qed.

(** C3.  The normalizer is not idempotent: on a pattern with a parenthesis
    a second pass escapes the backslashes' parentheses again. *)
Theorem glob_normalize_not_idempotent :
  exists p,
    includes p "(" = true
    /\ glob_normalize p = "books/\(group\)/*.svelte"
    /\ glob_normalize (glob_normalize p) = "books/\\(group\\)/*.svelte"
    /\ glob_normalize (glob_normalize p) <> glob_normalize p.
Proof.
  exists "books/(group)/*.svelte".
  split; [reflexivity|]. split; [vm_compute; reflexivity|].
  split; [vm_compute; reflexivity|]. vm_compute. discriminate.
Qed.

(* ================================================================== *)
(** * The claims about [load] and [configResolved] *)
(* ================================================================== *)

(** C8.  When fast-glob rejects, [load] still fulfils with the module text
    for the empty file list (it neither rejects nor answers [null]), the
    error goes to [console.error], and the closure variables are left
    alone. *)
Theorem load_glob_failure_caught
    (options : option BookEmojiPluginOptions)
    (fg : string -> string -> settled (list FgEntry))
    (st : Closure) (e : value) :
  root_unset (projectRoot st) = false ->
  fg (glob_used st) (NodePath.normalize (root_or_empty st)) = Rejected e ->
  exists debug_lines,
    load options fg resolvedVirtualModuleId st
    = (Fulfilled (Some (createExportStatements (base_or_empty (bookEmojiConfig st)) [])),
       set_console st
         (console st ++ debug_lines
          ++ [mkLine console_error
                [VString plugin_prefix; VString "Error globbing files:"; e]])%list)
    /\ Forall (fun l => method l = console_log) debug_lines.
Proof.
  intros Hroot Hfg. unfold load.
  rewrite String.eqb_refl. unfold bind at 1. unfold get_closure. cbv beta iota.
  rewrite Hroot. unfold try_catch.
  destruct (load_try_rejected options fg st st e Hfg) as (ls & E & F).
  rewrite E. exists ls. split; [|exact F].
  unfold load_catch, bind, print, ret, set_console.
  cbn [config bookEmojiConfig userGlobPattern projectRoot console].
  now rewrite <- app_assoc.
Qed.

Lemma load_glob_failure_caught_witness :
  exists debug_lines,
    load None (fun _ _ => Rejected (VObject [("code", VString "EACCES")]))
      resolvedVirtualModuleId
      (mkClosure (Some (mkResolvedConfig "/srv/app" serve))
                 (Some (mkBookEmojiConfig (Some "/docs") (Some "./src/**/*.book.svelte")))
                 "./src/**/*.book.svelte" (Some "/srv/app") [])
    = (Fulfilled (Some (createExportStatements "/docs" [])),
       mkClosure (Some (mkResolvedConfig "/srv/app" serve))
                 (Some (mkBookEmojiConfig (Some "/docs") (Some "./src/**/*.book.svelte")))
                 "./src/**/*.book.svelte" (Some "/srv/app")
                 ([] ++ debug_lines
                  ++ [mkLine console_error
                        [VString plugin_prefix; VString "Error globbing files:";
                         VObject [("code", VString "EACCES")]]])%list)
    /\ Forall (fun l => method l = console_log) debug_lines.
Proof.
  apply (load_glob_failure_caught None
           (fun _ _ => Rejected (VObject [("code", VString "EACCES")]))
           (mkClosure (Some (mkResolvedConfig "/srv/app" serve))
                      (Some (mkBookEmojiConfig (Some "/docs") (Some "./src/**/*.book.svelte")))
                      "./src/**/*.book.svelte" (Some "/srv/app") [])).
  - reflexivity.
  - reflexivity.
Defined.

(** C10.  With the project root still unset, [load] of the virtual module
    fulfils (no exception) with a text, not [null]: the module synthesized
    for the configured base (or the empty one) and the empty file list,
    which is the base statement followed by a text that reads, statement
    by statement, as empty [stories], [map] and [record] literals and the
    loader's statements (with no plugin configuration recorded, as before
    [configResolved], the whole text reads as a module with the empty
    base); one line goes to [console.error] and fast-glob is not
    consulted. *)
Theorem load_before_configResolved
    (options : option BookEmojiPluginOptions)
    (fg : string -> string -> settled (list FgEntry))
    (st : Closure) :
  root_unset (projectRoot st) = true ->
  let base_ := base_or_empty (bookEmojiConfig st) in
  load options fg resolvedVirtualModuleId st
  = (Fulfilled (Some (createExportStatements base_ [])),
     set_console st
       (console st
        ++ [mkLine console_error
              [VString plugin_prefix;
               VString ("projectRoot not set. " ++ dq ++ "configResolved" ++ dq
                         ++ " might not have run yet. Returning empty array.")]])%list)
  /\ createExportStatements base_ []
     = nl ++ "  " ++ "export const base = " ++ dq ++ base_ ++ dq ++ ";"
       ++ text_after_base []
  /\ read_exports_after_base (text_after_base []) = Some ([], [], [])
  /\ (base_safe base_ = true ->
      read_module (createExportStatements base_ []) = Some (mkModuleText base_ [] [] []))
  /\ (bookEmojiConfig st = None ->
      read_module (createExportStatements base_ []) = Some (mkModuleText "" [] [] [])).
Proof.
  intros Hroot base_.
  destruct (empty_module_well_formed base_) as (W1 & W2 & W3).
  split; [|split; [exact W1 | split; [exact W2 | split; [exact W3|]]]].
  - unfold load. rewrite String.eqb_refl.
    unfold bind at 1. unfold get_closure. cbv beta iota.
    rewrite Hroot. reflexivity.
  - intros Hnone. subst base_. rewrite Hnone. vm_compute. reflexivity.
Qed.

Lemma load_before_configResolved_witness :
  load None (fun _ _ => Fulfilled [mkFgEntry "a.book.svelte" "books/a.book.svelte"])
    resolvedVirtualModuleId initial_closure
  = (Fulfilled (Some (createExportStatements "" [])),
     set_console initial_closure
       ([] ++ [mkLine console_error
                 [VString plugin_prefix;
                  VString ("projectRoot not set. " ++ dq ++ "configResolved" ++ dq
                            ++ " might not have run yet. Returning empty array.")]])%list)
  /\ createExportStatements "" []
     = nl ++ "  " ++ "export const base = " ++ dq ++ "" ++ dq ++ ";"
       ++ text_after_base []
  /\ read_exports_after_base (text_after_base []) = Some ([], [], [])
  /\ (base_safe "" = true ->
      read_module (createExportStatements "" []) = Some (mkModuleText "" [] [] []))
  /\ (@None BookEmojiConfig = None ->
      read_module (createExportStatements "" []) = Some (mkModuleText "" [] [] [])).
Proof.
  apply (load_before_configResolved None
           (fun _ _ => Fulfilled [mkFgEntry "a.book.svelte" "books/a.book.svelte"])
           initial_closure).
  reflexivity.
Defined.

(** Running a hook on given options: the monad and the logger unfold, text
    stays as it is. *)
Ltac run_hook :=
  cbv beta iota zeta delta
    [configResolved bind try_catch set_root set_book_config log print ret
     get_closure when throw debug_enabled debug stories_or_empty stories
     root command initial_closure set_console
     config bookEmojiConfig userGlobPattern projectRoot console
     String.eqb Ascii.eqb Bool.eqb app].

(** C1, evaluated on the code.  With a [svelte.config.js] whose default
    export has a [bookemoji] object without [stories] (or with the empty
    string), [configResolved] warns, but it overwrites the built-in glob
    with the empty string: [load] then hands fast-glob the pattern [.] (what
    [path.posix.normalize] makes of the empty string), not the default
    pattern. *)
Theorem configResolved_empty_stories_overwrites_default
    (options : option BookEmojiPluginOptions) (rc : ResolvedConfig)
    (cfg : BookEmojiConfig) :
  stories cfg = None \/ stories cfg = Some "" ->
  exists st,
    configResolved options rc (imported (Some (Some cfg))) initial_closure
    = (Fulfilled tt, st)
    /\ bookEmojiConfig st = Some cfg
    /\ userGlobPattern st = ""
    /\ glob_used st = "."
    /\ glob_normalize default_glob = "books/stories/**/*.book.svelte"
    /\ glob_used st <> glob_normalize default_glob
    /\ In stories_warning (console st).
Proof.
  intros Hs. destruct cfg as [b s_]. cbn [stories] in Hs.
  destruct rc as [r c].
  assert (Hg : glob_normalize "" = ".") by (vm_compute; reflexivity).
  assert (Hd : glob_normalize default_glob = "books/stories/**/*.book.svelte")
    by (vm_compute; reflexivity).
  destruct Hs as [-> | ->];
    destruct options as [[[[|]|] sl]|]; destruct c; run_hook;
    (eexists; split; [reflexivity|]);
    unfold glob_used; cbn [bookEmojiConfig userGlobPattern console];
    rewrite Hg, Hd;
    (repeat split; [discriminate | cbn [In]; repeat (first [left; reflexivity | right])]).
Qed.

Lemma configResolved_empty_stories_overwrites_default_witness :
  exists st,
    configResolved None (mkResolvedConfig "/srv/app" serve)
      (imported (Some (Some (mkBookEmojiConfig None None)))) initial_closure
    = (Fulfilled tt, st)
    /\ bookEmojiConfig st = Some (mkBookEmojiConfig None None)
    /\ userGlobPattern st = ""
    /\ glob_used st = "."
    /\ glob_normalize default_glob = "books/stories/**/*.book.svelte"
    /\ glob_used st <> glob_normalize default_glob
    /\ In stories_warning (console st).
Proof.
  apply (configResolved_empty_stories_overwrites_default None
           (mkResolvedConfig "/srv/app" serve) (mkBookEmojiConfig None None)).
  left. reflexivity.
Defined.

(* ================================================================== *)
(** * Further properties: how the hooks run *)
(* ================================================================== *)

Module HookRuns.

Lemma set_console_twice (s : Closure) (c1 c2 : list ConsoleLine) :
  set_console (set_console s c1) c2 = set_console s c2.
Proof. reflexivity. Qed.

Lemma console_set_console (s : Closure) (c : list ConsoleLine) :
  console (set_console s c) = c.
Proof. reflexivity. Qed.

Lemma set_console_same (s : Closure) : set_console s (console s) = s.
Proof. now destruct s. Qed.

Lemma prefixed_line (method_ : ConsoleMethod) (rest : list value) :
  prefixed (mkLine method_ (VString plugin_prefix :: rest)).
Proof. now exists rest. Qed.

Lemma visible_app (a b : list ConsoleLine) :
  visible (a ++ b) = (visible a ++ visible b)%list.
Proof. apply filter_app. Qed.

(** The test [e.code === "ENOENT"] of the [catch] block. *)
Lemma match_enoent {T : Type} (e : value) (A B : T) :
  match get_member e "code" with VString "ENOENT" => A | _ => B end
  = if is_enoent e then A else B.
Proof.
  unfold is_enoent.
  destruct (get_member e "code") as [ | | b | n | s | props | props];
    try reflexivity.
  do 6 (destruct s as [|[[] [] [] [] [] [] [] []] s]; try reflexivity).
  destruct s; reflexivity.
Qed.

Section Runs.
Variable options : option BookEmojiPluginOptions.

Lemma printed_nil : printed options [] [].
Proof. split; [constructor | split; [reflexivity | split; [reflexivity | constructor]]]. Qed.

Lemma printed_app (l1 v1 l2 v2 : list ConsoleLine) :
  printed options l1 v1 -> printed options l2 v2 ->
  printed options (l1 ++ l2) (v1 ++ v2).
Proof.
  intros (F1 & V1 & D1 & M1) (F2 & V2 & D2 & M2). split; [|split; [|split]].
  - now apply Forall_app.
  - now rewrite visible_app, V1, V2.
  - intros H. now rewrite (D1 H), (D2 H).
  - now apply Forall_app.
Qed.

Lemma printed_plain (method_ : ConsoleMethod) (rest : list value) :
  is_debug_line (mkLine method_ (VString plugin_prefix :: rest)) = false ->
  printed options [mkLine method_ (VString plugin_prefix :: rest)]
                  [mkLine method_ (VString plugin_prefix :: rest)].
Proof.
  intros H. split; [|split; [|split]].
  - repeat constructor. apply prefixed_line.
  - unfold visible. cbn [filter]. now rewrite H.
  - reflexivity.
  - repeat constructor. congruence.
Qed.

(** A call of the logger at the debug level. *)
Lemma log_debug_printed (args_ : list value) (s : Closure) :
  exists ls,
    log options debug_level args_ s
    = (Fulfilled tt, set_console s (console s ++ ls))
    /\ printed options ls [].
Proof.
  unfold log. destruct (debug_enabled options) eqn:D.
  - eexists. split; [reflexivity|]. split; [|split; [|split]].
    + repeat constructor. apply prefixed_line.
    + reflexivity.
    + intros H. congruence.
    + repeat constructor.
  - exists []. rewrite app_nil_r, set_console_same.
    split; [reflexivity | apply printed_nil].
Qed.

Lemma when_log_debug_printed (b : bool) (args_ : list value) (s : Closure) :
  exists ls,
    when b (log options debug_level args_) s
    = (Fulfilled tt, set_console s (console s ++ ls))
    /\ printed options ls [].
Proof.
  destruct b; [apply log_debug_printed|].
  exists []. rewrite app_nil_r, set_console_same.
  split; [reflexivity | apply printed_nil].
Qed.

Lemma forEach_log_debug_printed {A : Type} (g : A -> list value) (l : list A) :
  forall s,
    exists ls,
      forEach l (fun x => log options debug_level (g x)) s
      = (Fulfilled tt, set_console s (console s ++ ls))
      /\ printed options ls [].
Proof.
  induction l as [|x l IH]; intros s.
  - exists []. rewrite app_nil_r, set_console_same.
    split; [reflexivity | apply printed_nil].
  - cbn [forEach]. unfold bind.
    destruct (log_debug_printed (g x) s) as (l1 & E1 & P1). rewrite E1.
    destruct (IH (set_console s (console s ++ l1))) as (l2 & E2 & P2). rewrite E2.
    exists (l1 ++ l2)%list. rewrite set_console_twice, console_set_console, app_assoc.
    split; [reflexivity | apply (printed_app _ [] _ []); assumption].
Qed.

(** A call of the logger at another level prints its one line. *)
Lemma log_info_run (args_ : list value) (s : Closure) :
  log options info args_ s
  = (Fulfilled tt,
     set_console s (console s ++ [mkLine console_log (VString plugin_prefix :: args_)])).
Proof. reflexivity. Qed.

Lemma log_warn_run (args_ : list value) (s : Closure) :
  log options warn args_ s
  = (Fulfilled tt,
     set_console s (console s ++ [mkLine console_warn (VString plugin_prefix :: args_)])).
Proof. reflexivity. Qed.

Lemma log_error_run (args_ : list value) (s : Closure) :
  log options error args_ s
  = (Fulfilled tt,
     set_console s (console s ++ [mkLine console_error (VString plugin_prefix :: args_)])).
Proof. reflexivity. Qed.

(** Stepping over a debug statement at the head of a block. *)
Ltac step_debug :=
  match goal with
  | |- context [bind (log options debug_level ?a) ?k ?s] =>
      let l := fresh "l" in let E := fresh "E" in let P := fresh "P" in
      destruct (log_debug_printed a s) as (l & E & P);
      unfold bind at 1; rewrite E; clear E; cbv beta iota zeta
  | |- context [bind (when ?b (log options debug_level ?a)) ?k ?s] =>
      let l := fresh "l" in let E := fresh "E" in let P := fresh "P" in
      destruct (when_log_debug_printed b a s) as (l & E & P);
      unfold bind at 1; rewrite E; clear E; cbv beta iota zeta
  end.

Lemma printed_debug_app (l ls vis : list ConsoleLine) :
  printed options l [] -> printed options ls vis -> printed options (l ++ ls) vis.
Proof. intros H1 H2. apply (printed_app l [] ls vis H1 H2). Qed.

Lemma printed_cons_plain (method_ : ConsoleMethod) (rest : list value)
    (ls vis : list ConsoleLine) :
  is_debug_line (mkLine method_ (VString plugin_prefix :: rest)) = false ->
  printed options ls vis ->
  printed options (mkLine method_ (VString plugin_prefix :: rest) :: ls)
                  (mkLine method_ (VString plugin_prefix :: rest) :: vis).
Proof.
  intros H1 H2.
  apply (printed_app [_] [_] ls vis (printed_plain _ _ H1) H2).
Qed.

(** Closing a run: the console is the old one and the lines gathered. *)
Ltac gather :=
  rewrite ?set_console_twice, ?console_set_console;
  eexists; split;
  [ rewrite <- ?app_assoc; reflexivity
  | cbn [app];
    repeat first
      [ assumption
      | apply printed_nil
      | apply printed_debug_app; [assumption|]
      | apply printed_cons_plain; [reflexivity|] ] ].

(** The lines other than debug ones of the [try] block of [load]. *)
Lemma load_try_run (fg : string -> string -> settled (list FgEntry))
    (st s : Closure) :
  root_unset (projectRoot st) = false ->
  exists ls,
    load_try options fg st s
    = (match fg (glob_used st) (NodePath.normalize (root_or_empty st)) with
       | Fulfilled files =>
           match config st with
           | Some _ =>
               Fulfilled (Some (createExportStatements
                                  (base_or_empty (bookEmojiConfig st))
                                  (map (fun f => "./" ++ path f) files)))
           | None =>
               Rejected (type_error
                           "Cannot read properties of undefined (reading 'command')")
           end
       | Rejected e => Rejected e
       end,
       set_console s (console s ++ ls))
    /\ printed options ls
         (match fg (glob_used st) (NodePath.normalize (root_or_empty st)) with
          | Fulfilled files =>
              match config st with
              | Some _ => load_lines fg resolvedVirtualModuleId st
              | None => []
              end
          | Rejected e => []
          end).
Proof.
  intros Hroot.
  unfold load_lines. rewrite String.eqb_refl, Hroot.
  unfold load_try, glob_used, root_or_empty.
  do 4 step_debug.
  unfold bind at 1. unfold await_.
  destruct (fg (glob_normalize (userGlobPattern st))
              (NodePath.normalize match projectRoot st with
                                  | Some r => r
                                  | None => ""
                                  end)) as [files | e].
  - unfold bind at 1. unfold config_command.
    destruct (config st) as [rc|].
    + unfold ret at 1. cbv beta iota.
      destruct (command rc).
      * unfold when. unfold bind at 1. rewrite log_info_run. cbv beta iota.
        unfold bind at 1. rewrite log_info_run. cbv beta iota.
        unfold bind at 1.
        match goal with
        | |- context [forEach files ?f ?s1] =>
            destruct (forEach_log_debug_printed
                        (fun f0 => [VString "- "; VString (name f0)]) files s1)
              as (l5 & E5 & P5)
        end.
        rewrite E5. unfold ret. gather.
      * unfold when. unfold bind at 1. unfold ret at 1. cbv beta iota.
        unfold bind at 1. rewrite log_info_run. cbv beta iota.
        unfold bind at 1.
        match goal with
        | |- context [forEach files ?f ?s1] =>
            destruct (forEach_log_debug_printed
                        (fun f0 => [VString "- "; VString (name f0)]) files s1)
              as (l5 & E5 & P5)
        end.
        rewrite E5. unfold ret. gather.
    + unfold throw. gather.
  - gather.
Qed.

(** [load], run to its end: it fulfils with [load_answer] for the internal
    id and with [null] otherwise, and only prints. *)
Lemma load_run (fg : string -> string -> settled (list FgEntry))
    (id : string) (st : Closure) :
  exists ls,
    load options fg id st
    = (Fulfilled (if String.eqb id resolvedVirtualModuleId
                  then Some (load_answer fg st) else None),
       set_console st (console st ++ ls))
    /\ printed options ls (load_lines fg id st).
Proof.
  unfold load, load_answer.
  destruct (String.eqb id resolvedVirtualModuleId) eqn:Eid.
  - unfold bind at 1. unfold get_closure. cbv beta iota.
    destruct (root_unset (projectRoot st)) eqn:Hroot.
    + unfold load_lines. rewrite Eid, Hroot.
      unfold error_. unfold bind at 1. rewrite log_error_run. unfold ret.
      gather.
    + unfold try_catch.
      destruct (load_try_run fg st st Hroot) as (l1 & E1 & P1). rewrite E1.
      unfold load_lines in *. rewrite String.eqb_refl in P1. rewrite Eid.
      rewrite Hroot in *.
      destruct (fg (glob_used st) (NodePath.normalize (root_or_empty st)))
        as [files | e]; [destruct (config st) as [rc|] |].
      * eexists. split; [reflexivity | assumption].
      * unfold load_catch, bind, print, ret. gather.
      * unfold load_catch, bind, print, ret. gather.
  - unfold load_lines. rewrite Eid.
    exists []. rewrite app_nil_r, set_console_same.
    split; [reflexivity | apply printed_nil].
Qed.

(** [configResolved], run to its end: it ends as [resolved_outcome] says,
    the variables are [resolved_variables], and the lines other than debug
    ones are [resolved_lines]. *)
Lemma configResolved_run (rc : ResolvedConfig) (file : ConfigFile) (st : Closure) :
  exists ls,
    configResolved options rc file st
    = (resolved_outcome file, resolved_variables rc file st (console st ++ ls))
    /\ printed options ls (resolved_lines rc file st).
Proof.
  unfold configResolved.
  unfold bind at 1. unfold set_root at 1. cbv beta iota.
  step_debug. unfold try_catch. step_debug.
  assert (Hcatch : forall e s,
             bind (evaluate (read_member e "code"))
               (fun code =>
                  match code with
                  | VString "ENOENT" =>
                      log options error [VString "svelte.config.js not found."]
                  | _ => log options warn
                           [VString "An unknown error when trying to load config:"; e]
                  end) s
             = (caught_outcome e, set_console s (console s ++ caught_lines e))).
  { intros e s. unfold caught_outcome, caught_lines, bind, evaluate.
    destruct (nullish e) eqn:N.
    - rewrite app_nil_r, set_console_same.
      destruct e; try discriminate; reflexivity.
    - rewrite (read_member_nullish _ _ N). cbv beta iota.
      rewrite match_enoent. unfold catch_line, await.
      destruct (is_enoent e); reflexivity. }
  assert (Hcatch_line : forall e, printed options (caught_lines e) (caught_lines e)).
  { intros e. unfold caught_lines, catch_line.
    destruct (nullish e); [apply printed_nil|].
    destruct (is_enoent e); apply printed_plain; reflexivity. }
  assert (Hshape : forall b g s,
             match b with
             | Some _ => when (String.eqb g "") (log options warn
                 [VString ("svelte.config.js's " ++ dq ++ "bookemoji" ++ dq
                            ++ " does not contain a valid " ++ dq ++ "stories"
                            ++ dq ++ " value")])
             | None => log options warn
                         [VString "bookemoji not found in svelte.config.js"]
             end s
             = (Fulfilled tt, set_console s (console s ++ shape_warnings b g))).
  { intros b g s. unfold shape_warnings.
    destruct b as [cfg|]; [destruct (String.eqb g "")|]; try reflexivity.
    cbn [when]. unfold ret. now rewrite app_nil_r, set_console_same. }
  assert (Hshape_lines : forall b g,
             printed options (shape_warnings b g) (shape_warnings b g)).
  { intros b g. unfold shape_warnings.
    destruct b as [cfg|]; [destruct (String.eqb g "")|];
      first [apply printed_nil | apply printed_plain; reflexivity]. }
  destruct file as [e | e | [b|]];
    cbn [resolved_lines resolved_variables resolved_outcome].
  - unfold throw. rewrite Hcatch.
    rewrite ?set_console_twice, ?console_set_console.
    eexists. split; [rewrite <- ?app_assoc; reflexivity|].
    repeat (apply printed_debug_app; [assumption|]). apply Hcatch_line.
  - step_debug. unfold throw. rewrite Hcatch.
    rewrite ?set_console_twice, ?console_set_console.
    eexists. split; [rewrite <- ?app_assoc; reflexivity|].
    repeat (apply printed_debug_app; [assumption|]). apply Hcatch_line.
  - step_debug. unfold bind at 1. unfold bind at 1. unfold set_book_config at 1.
    cbv beta iota. rewrite log_info_run. cbv beta iota.
    unfold bind at 1. unfold get_closure. cbv beta iota.
    cbn [set_console config bookEmojiConfig userGlobPattern projectRoot console].
    rewrite Hshape.
    cbn [set_console config bookEmojiConfig userGlobPattern projectRoot console].
    eexists. split; [rewrite <- ?app_assoc; reflexivity|].
    repeat (apply printed_debug_app; [assumption|]).
    apply (printed_cons_plain console_log); [reflexivity | apply Hshape_lines].
  - step_debug. unfold bind at 1. unfold ret at 1. cbv beta iota.
    unfold bind at 1. unfold get_closure. cbv beta iota.
    cbn [set_console config bookEmojiConfig userGlobPattern projectRoot console].
    rewrite Hshape.
    cbn [set_console config bookEmojiConfig userGlobPattern projectRoot console].
    eexists. split; [rewrite <- ?app_assoc; reflexivity|].
    repeat (apply printed_debug_app; [assumption|]). apply Hshape_lines.
Qed.

End Runs.

End HookRuns.

(* ================================================================== *)
(** * Further properties of [load] and [configResolved] *)
(* ================================================================== *)

Lemma printed_line_cases (options : option BookEmojiPluginOptions)
    (ls vis : list ConsoleLine) (l : ConsoleLine) :
  printed options ls vis -> In l ls ->
  method l = console_log \/ In l vis.
Proof.
  intros (_ & V & _ & M) Hin.
  destruct (is_debug_line l) eqn:D.
  - left. rewrite Forall_forall in M. now apply M.
  - right. rewrite <- V. unfold visible. apply filter_In. now rewrite D.
Qed.

Lemma printed_visible_in (options : option BookEmojiPluginOptions)
    (ls vis : list ConsoleLine) (l : ConsoleLine) :
  printed options ls vis -> In l vis -> In l ls.
Proof.
  intros (_ & V & _) Hin. rewrite <- V in Hin.
  unfold visible in Hin. now apply filter_In in Hin.
Qed.

(** X1.  [load] never rejects.  It answers [null] exactly for the ids other
    than the internal one (the specifier [virtual:bookemoji] itself
    included), and then it neither prints nor changes anything. *)
Theorem load_answers_exactly_internal_id
    (options : option BookEmojiPluginOptions)
    (fg : string -> string -> settled (list FgEntry)) (id : string) (st : Closure) :
  exists r st',
    load options fg id st = (Fulfilled r, st')
    /\ (r = None <-> id <> String NUL "virtual:bookemoji")
    /\ (id <> String NUL "virtual:bookemoji" -> st' = st)
    /\ load options fg "virtual:bookemoji" st = (Fulfilled None, st).
Proof.
  destruct (HookRuns.load_run options fg id st) as (ls & E & P).
  do 2 eexists. split; [exact E|].
  change (String NUL "virtual:bookemoji") with resolvedVirtualModuleId.
  destruct (String.eqb_spec id resolvedVirtualModuleId) as [->|N].
  - split; [split; [discriminate | congruence]|].
    split; [congruence | reflexivity].
  - split; [tauto|]. split; [|reflexivity].
    intros _. unfold load in E. apply String.eqb_neq in N. rewrite N in E.
    unfold ret in E. congruence.
Qed.

(** X2.  [load] leaves [config], the plugin configuration, the glob and the
    project root as they are; it only adds lines to the console, each
    starting with the plugin's prefix, and none of them goes to
    [console.warn]. *)
Theorem load_only_prints
    (options : option BookEmojiPluginOptions)
    (fg : string -> string -> settled (list FgEntry)) (id : string) (st : Closure) :
  exists ls,
    snd (load options fg id st) = set_console st (console st ++ ls)
    /\ same_variables st (snd (load options fg id st))
    /\ Forall prefixed ls
    /\ Forall (fun l => method l <> console_warn) ls.
Proof.
  destruct (HookRuns.load_run options fg id st) as (ls & E & P).
  exists ls. rewrite E. cbn [snd].
  split; [reflexivity|]. split; [repeat split|]. split; [apply P|].
  apply Forall_forall. intros l Hl.
  destruct (printed_line_cases _ _ _ l P Hl) as [-> | Hin]; [discriminate|].
  unfold load_lines in Hin.
  destruct (String.eqb id resolvedVirtualModuleId); [|destruct Hin].
  destruct (root_unset (projectRoot st)).
  - destruct Hin as [<- | []]. discriminate.
  - destruct (fg (glob_used st) (NodePath.normalize (root_or_empty st)))
      as [files | e].
    + destruct (config st) as [rc|].
      * apply in_app_iff in Hin. destruct Hin as [Hin | [<- | []]]; [|discriminate].
        destruct (command rc); [destruct Hin as [<- | []]; discriminate | destruct Hin].
      * destruct Hin as [<- | []]. discriminate.
    + destruct Hin as [<- | []]. discriminate.
Qed.

(** X3.  When the root is set, [config] is there and fast-glob fulfils,
    [load] answers the module for the found paths, each prefixed with [./],
    in fast-glob's order; it prints to [console.log] only, and apart from
    debug lines just the count (after an empty line when building). *)
Theorem load_lists_glob_results
    (options : option BookEmojiPluginOptions)
    (fg : string -> string -> settled (list FgEntry))
    (st : Closure) (rc : ResolvedConfig) (files : list FgEntry) :
  root_unset (projectRoot st) = false ->
  config st = Some rc ->
  fg (glob_used st) (NodePath.normalize (root_or_empty st)) = Fulfilled files ->
  exists ls,
    load options fg resolvedVirtualModuleId st
    = (Fulfilled (Some (createExportStatements
                          (base_or_empty (bookEmojiConfig st))
                          (map (fun f => "./" ++ path f) files))),
       set_console st (console st ++ ls))
    /\ Forall (fun l => method l = console_log) ls
    /\ visible ls
       = ((match command rc with
           | build => [mkLine console_log [VString plugin_prefix; VString ""]]
           | serve => []
           end)
          ++ [mkLine console_log
                [VString plugin_prefix;
                 VString ("Found " ++ of_nat (List.length files) ++ " "
                           ++ (if Nat.eqb (List.length files) 1
                               then "story" else "stories"))]])%list.
Proof.
  intros Hroot Hcfg Hfg.
  destruct (HookRuns.load_run options fg resolvedVirtualModuleId st) as (ls & E & P).
  rewrite String.eqb_refl in E.
  unfold load_answer in E. unfold load_lines in P.
  rewrite String.eqb_refl, Hroot, Hfg, Hcfg in *.
  exists ls. split; [exact E|]. split; [|apply P].
  apply Forall_forall. intros l Hl.
  destruct (printed_line_cases _ _ _ l P Hl) as [H | Hin]; [exact H|].
  apply in_app_iff in Hin. destruct Hin as [Hin | [<- | []]]; [|reflexivity].
  destruct (command rc); [destruct Hin as [<- | []]; reflexivity | destruct Hin].
Qed.

Lemma load_lists_glob_results_witness :
  exists ls,
    load None sample_fg resolvedVirtualModuleId sample_closure
    = (Fulfilled (Some (createExportStatements
                          (base_or_empty (bookEmojiConfig sample_closure))
                          (map (fun f => "./" ++ path f) sample_entries))),
       set_console sample_closure (console sample_closure ++ ls))
    /\ Forall (fun l => method l = console_log) ls
    /\ visible ls
       = ((match command sample_config with
           | build => [mkLine console_log [VString plugin_prefix; VString ""]]
           | serve => []
           end)
          ++ [mkLine console_log
                [VString plugin_prefix;
                 VString ("Found " ++ of_nat (List.length sample_entries) ++ " "
                           ++ (if Nat.eqb (List.length sample_entries) 1
                               then "story" else "stories"))]])%list.
Proof.
  apply (load_lists_glob_results None sample_fg sample_closure sample_config
           sample_entries).
  - reflexivity.
  - reflexivity.
  - reflexivity.
Defined.

(** X4.  [load] prints to [console.error] exactly when it is asked for the
    internal id and cannot list the files: the root is unset, [config] is
    missing, or fast-glob rejects. *)
Theorem load_error_line_iff_failure
    (options : option BookEmojiPluginOptions)
    (fg : string -> string -> settled (list FgEntry)) (id : string) (st : Closure) :
  exists ls,
    console (snd (load options fg id st)) = (console st ++ ls)%list
    /\ (Exists (fun l => method l = console_error) ls
        <-> id = resolvedVirtualModuleId
            /\ (root_unset (projectRoot st) = true
                \/ config st = None
                \/ exists e,
                     fg (glob_used st) (NodePath.normalize (root_or_empty st))
                     = Rejected e)).
Proof.
  destruct (HookRuns.load_run options fg id st) as (ls & E & P).
  exists ls. rewrite E. cbn [snd]. split; [reflexivity|].
  assert (Hiff : Exists (fun l => method l = console_error) ls
                 <-> Exists (fun l => method l = console_error) (load_lines fg id st)).
  { rewrite !Exists_exists. split; intros (l & Hin & Hm).
    - exists l. split; [|exact Hm].
      destruct (printed_line_cases _ _ _ l P Hin) as [H | H]; [congruence | exact H].
    - exists l. split; [|exact Hm]. now apply (printed_visible_in options ls _ l P). }
  rewrite Hiff. clear Hiff. unfold load_lines.
  destruct (String.eqb_spec id resolvedVirtualModuleId) as [->|N].
  - destruct (root_unset (projectRoot st)).
    + split; [auto|]. intros _. apply Exists_cons_hd. reflexivity.
    + destruct (fg (glob_used st) (NodePath.normalize (root_or_empty st)))
        as [files | e].
      * destruct (config st) as [rc|].
        -- split.
           ++ intros H. apply Exists_exists in H as (l & Hin & Hm).
              apply in_app_iff in Hin.
              destruct Hin as [Hin | [<- | []]]; [|discriminate].
              destruct (command rc);
                [destruct Hin as [<- | []]; discriminate | destruct Hin].
           ++ intros (_ & [H | [H | (e & H)]]); discriminate.
        -- split; [auto|]. intros _. apply Exists_cons_hd. reflexivity.
      * split; [eauto|]. intros _. apply Exists_cons_hd. reflexivity.
  - split; [intros H; inversion H | tauto].
Qed.

(** X5.  The plugin options change nothing but debug lines: with any two
    option records, [load] gives the same answer, [configResolved] ends the
    same way (fulfilled, or rejected with the same error) with the same
    closure variables, and the lines other than debug ones are the same. *)
Theorem options_change_debug_lines_only
    (o1 o2 : option BookEmojiPluginOptions)
    (fg : string -> string -> settled (list FgEntry)) (id : string)
    (rc : ResolvedConfig) (file : ConfigFile) (st : Closure) :
  (exists r ls1 ls2,
      load o1 fg id st = (r, set_console st (console st ++ ls1))
      /\ load o2 fg id st = (r, set_console st (console st ++ ls2))
      /\ visible ls1 = visible ls2)
  /\ (exists r ls1 ls2,
        configResolved o1 rc file st
        = (r, resolved_variables rc file st (console st ++ ls1))
        /\ configResolved o2 rc file st
           = (r, resolved_variables rc file st (console st ++ ls2))
        /\ visible ls1 = visible ls2).
Proof.
  split.
  - destruct (HookRuns.load_run o1 fg id st) as (ls1 & E1 & _ & V1 & _).
    destruct (HookRuns.load_run o2 fg id st) as (ls2 & E2 & _ & V2 & _).
    do 3 eexists. split; [exact E1|]. split; [exact E2|]. congruence.
  - destruct (HookRuns.configResolved_run o1 rc file st) as (ls1 & E1 & _ & V1 & _).
    destruct (HookRuns.configResolved_run o2 rc file st) as (ls2 & E2 & _ & V2 & _).
    do 3 eexists. split; [exact E1|]. split; [exact E2|]. congruence.
Qed.

(** X6.  Unless [options.debug] is [true], the hooks print no debug line:
    the lines [load] and [configResolved] add to the console are exactly
    [load_lines] and [resolved_lines] (for [configResolved], no line at all
    when its [catch] block throws on [null] or [undefined]). *)
Theorem no_debug_lines_without_option
    (options : option BookEmojiPluginOptions)
    (fg : string -> string -> settled (list FgEntry)) (id : string)
    (rc : ResolvedConfig) (file : ConfigFile) (st : Closure) :
  debug_enabled options = false ->
  console (snd (load options fg id st)) = (console st ++ load_lines fg id st)%list
  /\ console (snd (configResolved options rc file st))
     = (console st ++ resolved_lines rc file st)%list.
Proof.
  intros D. split.
  - destruct (HookRuns.load_run options fg id st) as (ls & E & _ & _ & H & _).
    rewrite E, (H D). reflexivity.
  - destruct (HookRuns.configResolved_run options rc file st)
      as (ls & E & _ & _ & H & _).
    rewrite E, (H D). cbn [snd]. now destruct file as [e | e | [b|]].
Qed.

Lemma no_debug_lines_without_option_witness :
  console (snd (load (Some (mkOptions (Some false) None)) sample_fg
                  resolvedVirtualModuleId sample_closure))
  = (console sample_closure
     ++ load_lines sample_fg resolvedVirtualModuleId sample_closure)%list
  /\ console (snd (configResolved (Some (mkOptions (Some false) None)) sample_config
                     (imported None) sample_closure))
     = (console sample_closure
        ++ resolved_lines sample_config (imported None) sample_closure)%list.
Proof.
  apply (no_debug_lines_without_option (Some (mkOptions (Some false) None))).
  reflexivity.
Defined.

(** X7.  Whatever it meets on disk, [configResolved] records the resolved
    configuration and its root and only adds lines to the console, each
    starting with the plugin's prefix.  It fulfils unless the existence
    check or the import rejects with [null] or [undefined]: then reading
    [e.code] in the [catch] block throws, the hook rejects with that
    [TypeError], and it has printed nothing but debug lines. *)
Theorem configResolved_rejects_only_in_catch
    (options : option BookEmojiPluginOptions) (rc : ResolvedConfig)
    (file : ConfigFile) (st : Closure) :
  exists r st' ls,
    configResolved options rc file st = (r, st')
    /\ config st' = Some rc
    /\ projectRoot st' = Some (root rc)
    /\ console st' = (console st ++ ls)%list
    /\ Forall prefixed ls
    /\ (r = Fulfilled tt <->
        forall e, file = access_rejects e \/ file = import_rejects e ->
                  nullish e = false)
    /\ (forall err, r = Rejected err ->
          visible ls = []
          /\ exists e, (file = access_rejects e \/ file = import_rejects e)
                       /\ nullish e = true
                       /\ read_member e "code" = Rejected err).
Proof.
  destruct (HookRuns.configResolved_run options rc file st)
    as (ls & E & F & V & _).
  exists (resolved_outcome file),
         (resolved_variables rc file st (console st ++ ls)), ls.
  split; [exact E|].
  split; [now destruct file as [e | e | [b|]]|].
  split; [now destruct file as [e | e | [b|]]|].
  split; [now destruct file as [e | e | [b|]]|].
  split; [exact F|].
  assert (Hcaught : forall e,
             (caught_outcome e = Fulfilled tt <-> nullish e = false)
             /\ (forall err, caught_outcome e = Rejected err ->
                   caught_lines e = [] /\ nullish e = true
                   /\ read_member e "code" = Rejected err)).
  { intros e. unfold caught_outcome, caught_lines.
    destruct e; cbn [nullish read_member await];
      (split; [split; congruence|]); intros err H;
      try discriminate;
      (split; [reflexivity | split; [reflexivity | inversion H; reflexivity]]). }
  destruct file as [e | e | d]; cbn [resolved_outcome resolved_lines] in *.
  - destruct (Hcaught e) as [H1 H2]. split.
    + rewrite H1. split.
      * intros N e' [Ee | Ee]; inversion Ee; now subst.
      * intros H. apply H. now left.
    + intros err Herr. destruct (H2 err Herr) as (L & N & R).
      split; [now rewrite V, L|]. exists e. auto.
  - destruct (Hcaught e) as [H1 H2]. split.
    + rewrite H1. split.
      * intros N e' [Ee | Ee]; inversion Ee; now subst.
      * intros H. apply H. now right.
    + intros err Herr. destruct (H2 err Herr) as (L & N & R).
      split; [now rewrite V, L|]. exists e. auto.
  - split.
    + split; [|reflexivity]. intros _ e [Ee | Ee]; discriminate.
    + intros err Herr. discriminate.
Qed.

(** X8.  With a default export whose [bookemoji] has a non-empty [stories],
    [configResolved] takes that glob and the configuration (so its base,
    or the empty string, is what [load] writes), reports it on
    [console.log] and prints no warning or error. *)
Theorem configResolved_takes_stories
    (options : option BookEmojiPluginOptions) (rc : ResolvedConfig)
    (cfg : BookEmojiConfig) (glob : string) (st : Closure) :
  stories cfg = Some glob ->
  glob <> "" ->
  exists st' ls,
    configResolved options rc (imported (Some (Some cfg))) st = (Fulfilled tt, st')
    /\ bookEmojiConfig st' = Some cfg
    /\ userGlobPattern st' = glob
    /\ glob_used st' = glob_normalize glob
    /\ console st' = (console st ++ ls)%list
    /\ visible ls = [config_found_line rc glob]
    /\ Forall (fun l => method l = console_log) ls.
Proof.
  intros Hs Hne.
  destruct (HookRuns.configResolved_run options rc (imported (Some (Some cfg))) st)
    as (ls & E & P).
  cbn [resolved_variables resolved_lines stories_or_empty shape_warnings] in E, P.
  rewrite Hs in E, P. apply String.eqb_neq in Hne. rewrite Hne in P.
  do 2 eexists. split; [exact E|]. cbn.
  repeat split; try apply P.
  apply Forall_forall. intros l Hl.
  destruct (printed_line_cases _ _ _ l P Hl) as [H | [<- | []]];
    [exact H | reflexivity].
Qed.

Lemma configResolved_takes_stories_witness :
  exists st' ls,
    configResolved None (mkResolvedConfig "/srv/app" serve)
      (imported (Some (Some (mkBookEmojiConfig (Some "/docs")
                               (Some "./src/stories/**/*.story.svelte")))))
      initial_closure
    = (Fulfilled tt, st')
    /\ bookEmojiConfig st'
       = Some (mkBookEmojiConfig (Some "/docs") (Some "./src/stories/**/*.story.svelte"))
    /\ userGlobPattern st' = "./src/stories/**/*.story.svelte"
    /\ glob_used st' = glob_normalize "./src/stories/**/*.story.svelte"
    /\ console st' = (console initial_closure ++ ls)%list
    /\ visible ls
       = [config_found_line (mkResolvedConfig "/srv/app" serve)
            "./src/stories/**/*.story.svelte"]
    /\ Forall (fun l => method l = console_log) ls.
Proof.
  apply (configResolved_takes_stories None (mkResolvedConfig "/srv/app" serve)
           (mkBookEmojiConfig (Some "/docs") (Some "./src/stories/**/*.story.svelte"))
           "./src/stories/**/*.story.svelte" initial_closure).
  - reflexivity.
  - discriminate.
Defined.

(** X9.  A default export without a [bookemoji] property is reported with
    the warning that it was not found, but the glob does not stay what it
    was: it becomes the empty string (written before the check), so [load]
    then hands fast-glob the pattern [.]. *)
Theorem configResolved_without_bookemoji
    (options : option BookEmojiPluginOptions) (rc : ResolvedConfig) (st : Closure) :
  exists st' ls,
    configResolved options rc (imported (Some None)) st = (Fulfilled tt, st')
    /\ bookEmojiConfig st' = None
    /\ userGlobPattern st' = ""
    /\ glob_used st' = "."
    /\ console st' = (console st ++ ls)%list
    /\ visible ls = [config_found_line rc ""; not_found_warning].
Proof.
  destruct (HookRuns.configResolved_run options rc (imported (Some None)) st)
    as (ls & E & P).
  do 2 eexists. split; [exact E|]. cbn.
  repeat split; try apply P; try (vm_compute; reflexivity).
Qed.

(** X10.  When the existence check or the import rejects with a value
    other than [null] and [undefined] whose [code] is not ENOENT,
    [configResolved] fulfils, warns with the error and keeps the plugin
    configuration and the glob it had; nothing goes to [console.error]. *)
Theorem configResolved_load_failure_warns
    (options : option BookEmojiPluginOptions) (rc : ResolvedConfig)
    (e : value) (st : Closure) (file : ConfigFile) :
  nullish e = false ->
  is_enoent e = false ->
  file = access_rejects e \/ file = import_rejects e ->
  exists st' ls,
    configResolved options rc file st = (Fulfilled tt, st')
    /\ bookEmojiConfig st' = bookEmojiConfig st
    /\ userGlobPattern st' = userGlobPattern st
    /\ console st' = (console st ++ ls)%list
    /\ visible ls
       = [mkLine console_warn
            [VString plugin_prefix;
             VString "An unknown error when trying to load config:"; e]]
    /\ Forall (fun l => method l <> console_error) ls.
Proof.
  intros Hn He Hfile.
  destruct (HookRuns.configResolved_run options rc file st) as (ls & E & P).
  assert (Hlines : resolved_lines rc file st
                   = [mkLine console_warn
                        [VString plugin_prefix;
                         VString "An unknown error when trying to load config:"; e]]).
  { destruct Hfile as [-> | ->]; cbn [resolved_lines];
      unfold caught_lines, catch_line; now rewrite Hn, He. }
  assert (Hout : resolved_outcome file = Fulfilled tt).
  { destruct Hfile as [-> | ->]; cbn [resolved_outcome]; unfold caught_outcome;
      now rewrite (read_member_nullish _ _ Hn). }
  rewrite Hlines in P. rewrite Hout in E.
  do 2 eexists. split; [exact E|].
  destruct Hfile as [-> | ->]; cbn;
    (repeat split; try apply P);
    apply Forall_forall; intros l Hl;
    (destruct (printed_line_cases _ _ _ l P Hl) as [-> | [<- | []]]; discriminate).
Qed.

Lemma configResolved_load_failure_warns_witness :
  exists st' ls,
    configResolved None sample_config
      (import_rejects (VObject [("code", VString "ERR_MODULE_NOT_FOUND")]))
      sample_closure
    = (Fulfilled tt, st')
    /\ bookEmojiConfig st' = bookEmojiConfig sample_closure
    /\ userGlobPattern st' = userGlobPattern sample_closure
    /\ console st' = (console sample_closure ++ ls)%list
    /\ visible ls
       = [mkLine console_warn
            [VString plugin_prefix;
             VString "An unknown error when trying to load config:";
             VObject [("code", VString "ERR_MODULE_NOT_FOUND")]]]
    /\ Forall (fun l => method l <> console_error) ls.
Proof.
  apply (configResolved_load_failure_warns None sample_config
           (VObject [("code", VString "ERR_MODULE_NOT_FOUND")]) sample_closure
           (import_rejects (VObject [("code", VString "ERR_MODULE_NOT_FOUND")]))).
  - reflexivity.
  - reflexivity.
  - right. reflexivity.
Defined.

(** X11.  A configuration module without a (truthy) default export changes
    neither the plugin configuration nor the glob; the warnings then judge
    what was there before: from the initial state, "bookemoji not found",
    with the default glob kept. *)
Theorem configResolved_without_default_export
    (options : option BookEmojiPluginOptions) (rc : ResolvedConfig) (st : Closure) :
  (exists st' ls,
      configResolved options rc (imported None) st = (Fulfilled tt, st')
      /\ bookEmojiConfig st' = bookEmojiConfig st
      /\ userGlobPattern st' = userGlobPattern st
      /\ console st' = (console st ++ ls)%list
      /\ visible ls = shape_warnings (bookEmojiConfig st) (userGlobPattern st))
  /\ (exists st' ls,
        configResolved options rc (imported None) initial_closure = (Fulfilled tt, st')
        /\ userGlobPattern st' = "./books/stories/**/*.book.svelte"
        /\ console st' = ls
        /\ visible ls = [not_found_warning]).
Proof.
  split.
  - destruct (HookRuns.configResolved_run options rc (imported None) st)
      as (ls & E & P).
    do 2 eexists. split; [exact E|]. cbn. repeat split; apply P.
  - destruct (HookRuns.configResolved_run options rc (imported None) initial_closure)
      as (ls & E & P).
    do 2 eexists. split; [exact E|]. cbn. repeat split; apply P.
Qed.

(** X12.  Once [configResolved] has run for a non-empty root, [load] of the
    internal id always consults fast-glob, with the normalized glob of the
    closure and the normalized root as [cwd], and answers with what it
    finds (nothing if it rejects).  After a resolution that found no
    configuration file the pattern is [books/stories/**/*.book.svelte] and
    the base is empty. *)
Theorem load_after_configResolved
    (o1 o2 : option BookEmojiPluginOptions) (rc : ResolvedConfig)
    (file : ConfigFile) (st : Closure)
    (fg : string -> string -> settled (list FgEntry)) :
  root rc <> "" ->
  let st1 := snd (configResolved o1 rc file st) in
  fst (load o2 fg resolvedVirtualModuleId st1)
  = Fulfilled
      (Some (createExportStatements (base_or_empty (bookEmojiConfig st1))
               match fg (glob_normalize (userGlobPattern st1))
                        (NodePath.normalize (root rc)) with
               | Fulfilled files => map (fun f => "./" ++ path f) files
               | Rejected _ => []
               end))
  /\ (forall e, is_enoent e = true ->
        fst (load o2 fg resolvedVirtualModuleId
               (snd (configResolved o1 rc (access_rejects e) initial_closure)))
        = Fulfilled
            (Some (createExportStatements ""
                     match fg "books/stories/**/*.book.svelte"
                              (NodePath.normalize (root rc)) with
                     | Fulfilled files => map (fun f => "./" ++ path f) files
                     | Rejected _ => []
                     end))).
Proof.
  intros Hroot st1.
  assert (Hgen : forall file0 st0,
             let s1 := snd (configResolved o1 rc file0 st0) in
             fst (load o2 fg resolvedVirtualModuleId s1)
             = Fulfilled
                 (Some (createExportStatements (base_or_empty (bookEmojiConfig s1))
                          match fg (glob_normalize (userGlobPattern s1))
                                   (NodePath.normalize (root rc)) with
                          | Fulfilled files => map (fun f => "./" ++ path f) files
                          | Rejected _ => []
                          end))).
  { intros file0 st0 s1.
    destruct (HookRuns.configResolved_run o1 rc file0 st0) as (ls & E & _).
    destruct (HookRuns.load_run o2 fg resolvedVirtualModuleId s1) as (ls' & E' & _).
    rewrite E'. cbn [fst]. rewrite String.eqb_refl.
    unfold load_answer, glob_used, root_or_empty.
    assert (Hvars : config s1 = Some rc /\ projectRoot s1 = Some (root rc)).
    { unfold s1. rewrite E. cbn [snd].
      destruct file0 as [e | e | [b|]]; split; reflexivity. }
    destruct Hvars as [Hc Hp]. rewrite Hc, Hp. cbn [root_unset].
    apply String.eqb_neq in Hroot. rewrite Hroot.
    destruct (fg (glob_normalize (userGlobPattern s1)) (NodePath.normalize (root rc)));
      reflexivity. }
  split; [apply Hgen|].
  intros e He.
  specialize (Hgen (access_rejects e) initial_closure). cbv zeta in Hgen.
  rewrite Hgen.
  destruct (HookRuns.configResolved_run o1 rc (access_rejects e) initial_closure)
    as (ls & E & _).
  rewrite E. cbn [snd resolved_variables bookEmojiConfig userGlobPattern
                  initial_closure base_or_empty].
  replace (glob_normalize default_glob) with "books/stories/**/*.book.svelte"
    by (vm_compute; reflexivity).
  reflexivity.
Qed.

Lemma load_after_configResolved_witness :
  let st1 := snd (configResolved None sample_config (imported None) sample_closure) in
  fst (load None sample_fg resolvedVirtualModuleId st1)
  = Fulfilled
      (Some (createExportStatements (base_or_empty (bookEmojiConfig st1))
               match sample_fg (glob_normalize (userGlobPattern st1))
                        (NodePath.normalize (root sample_config)) with
               | Fulfilled files => map (fun f => "./" ++ path f) files
               | Rejected _ => []
               end))
  /\ (forall e, is_enoent e = true ->
        fst (load None sample_fg resolvedVirtualModuleId
               (snd (configResolved None sample_config (access_rejects e)
                       initial_closure)))
        = Fulfilled
            (Some (createExportStatements ""
                     match sample_fg "books/stories/**/*.book.svelte"
                              (NodePath.normalize (root sample_config)) with
                     | Fulfilled files => map (fun f => "./" ++ path f) files
                     | Rejected _ => []
                     end))).
Proof.
  apply (load_after_configResolved None None sample_config (imported None)
           sample_closure sample_fg).
  discriminate.
Defined.

(* ================================================================== *)
(** * Further properties of the glob normalizer and the synthesizer *)
(* ================================================================== *)

Module TextFacts.

Lemma escaped_from_any (s : string) :
  forall b, parens_escaped_from b (escape_parens_spec s) = true.
Proof.
  induction s as [|c r IH]; intros b; [reflexivity|].
  cbn [escape_parens_spec].
  destruct (is_paren c) eqn:Hc.
  - cbn [parens_escaped_from]. rewrite Hc, Ascii.eqb_refl, IH. reflexivity.
  - cbn [parens_escaped_from]. rewrite Hc, IH. reflexivity.
Qed.

Lemma escape_length (s : string) :
  String.length (escape_parens_spec s)
  = (String.length s + count_parens s)%nat.
Proof.
  induction s as [|c r IH]; [reflexivity|].
  cbn [escape_parens_spec count_parens].
  destruct (is_paren c); cbn [String.length]; rewrite IH; lia.
Qed.

Lemma escape_without_parens (s : string) :
  count_parens s = O -> escape_parens_spec s = s.
Proof.
  induction s as [|c r IH]; [reflexivity|].
  cbn [escape_parens_spec count_parens].
  destruct (is_paren c); [discriminate|].
  intros H. now rewrite IH.
Qed.

(** ** [includes] *)

Lemma prefix_app (p t : string) : String.prefix p (p ++ t) = true.
Proof.
  induction p as [|c p IH]; cbn; [now destruct t|].
  destruct (Ascii.ascii_dec c c); [exact IH | congruence].
Qed.

Lemma includes_here (p t : string) : includes (p ++ t) p = true.
Proof.
  destruct (p ++ t) eqn:E; cbn [includes];
    rewrite <- E, prefix_app; reflexivity.
Qed.

Lemma includes_app_r (x t p : string) :
  includes t p = true -> includes (x ++ t) p = true.
Proof.
  intros H. induction x as [|c x IH]; [exact H|].
  cbn [append includes]. rewrite IH. apply orb_true_r.
Qed.

Lemma prefix_app_l (p t y : string) :
  String.prefix p t = true -> String.prefix p (t ++ y) = true.
Proof.
  revert t. induction p as [|c p IH]; intros t H.
  - now destruct (t ++ y).
  - destruct t as [|d t]; [discriminate|]. cbn in *.
    destruct (Ascii.ascii_dec c d); [now apply IH | discriminate].
Qed.

Lemma includes_app_l (t y p : string) :
  includes t p = true -> includes (t ++ y) p = true.
Proof.
  induction t as [|c t IH]; intros H.
  - cbn [includes] in H. rewrite orb_false_r in H.
    destruct p; [|discriminate]. now destruct (append "" y).
  - cbn [includes] in H. apply orb_true_iff in H.
    change (String c t ++ y) with (String c (t ++ y)). cbn [includes].
    destruct H as [H | H].
    + change (String c (t ++ y)) with (String c t ++ y).
      now rewrite (prefix_app_l _ _ y H).
    + rewrite (IH H). apply orb_true_r.
Qed.

Lemma includes_inside (x p y : string) : includes (x ++ p ++ y) p = true.
Proof. apply includes_app_r, includes_here. Qed.

Lemma includes_join (l : list string) (sep e p : string) :
  In e l -> includes e p = true -> includes (join l sep) p = true.
Proof.
  intros Hin Hp. induction l as [|x l IH]; [destruct Hin|].
  pose proof (ReaderFacts.join_cons sep x l "") as E.
  rewrite !ReaderFacts.append_nil_r in E. rewrite E.
  destruct Hin as [-> | Hin].
  - now apply includes_app_l.
  - now apply includes_app_r, includes_app_r, IH.
Qed.

End TextFacts.

(** X13.  In the pattern handed to fast-glob every parenthesis stands right
    after a backslash; the pattern is longer than the normalized one by
    exactly the number of its parentheses, and it is the normalized pattern
    itself exactly when that has no parenthesis. *)
Theorem glob_parens_all_escaped (p : string) :
  parens_escaped (glob_normalize p) = true
  /\ String.length (glob_normalize p)
     = (String.length (NodePath.normalize p) + count_parens (NodePath.normalize p))%nat
  /\ (glob_normalize p = NodePath.normalize p
      <-> count_parens (NodePath.normalize p) = O).
Proof.
  assert (E : glob_normalize p = escape_parens_spec (NodePath.normalize p))
    by apply GlobFacts.replace_both_parens.
  rewrite E. split; [apply TextFacts.escaped_from_any|].
  split; [apply TextFacts.escape_length|]. split.
  - intros H. apply (f_equal String.length) in H.
    rewrite TextFacts.escape_length in H. lia.
  - apply TextFacts.escape_without_parens.
Qed.

(** Passing over the text in front of the next [join]. *)
Ltac to_join :=
  repeat match goal with
         | |- includes (?x ++ _) _ = true =>
             lazymatch x with
             | join _ _ => fail
             | _ => apply TextFacts.includes_app_r
             end
         end.

(** X14.  Every path of the list is written into the module as literal
    import expressions of its own: [import(/* @vite-ignore */ '<path>')] in
    [stories], [import("<path>")] in the [map] of [loadStories], and a
    [null] entry in its [record]; this holds for any base and any paths. *)
Theorem every_path_has_literal_imports (base : string) (files : list string) (a : string) :
  In a files ->
  includes (createExportStatements base files) (import_commented a) = true
  /\ includes (createExportStatements base files) (import_plain a) = true
  /\ includes (createExportStatements base files) (record_entry a) = true.
Proof.
  intros Hin.
  assert (Hs : includes (_stories files) (import_commented a) = true).
  { unfold _stories. to_join. apply TextFacts.includes_app_l.
    apply (TextFacts.includes_join _ _ (stories_entry a)).
    - unfold entries. now apply in_map.
    - replace (stories_entry a)
        with ((dq ++ a ++ dq ++ ": ") ++ import_commented a ++ ", ")
        by (unfold stories_entry, import_commented;
            rewrite ?ReaderFacts.append_assoc; reflexivity).
      apply TextFacts.includes_inside. }
  assert (Hm : includes (_loadStories files) (import_plain a) = true).
  { unfold _loadStories. to_join. apply TextFacts.includes_app_l.
    apply (TextFacts.includes_join _ _ (map_entry a)).
    - now apply in_map.
    - replace (map_entry a)
        with ((dq ++ a ++ dq ++ ": ") ++ import_plain a ++ "")
        by (unfold map_entry, import_plain;
            rewrite ?ReaderFacts.append_assoc, ?ReaderFacts.append_nil_r;
            reflexivity).
      apply TextFacts.includes_inside. }
  assert (Hr : includes (_loadStories files) (record_entry a) = true).
  { unfold _loadStories. to_join. apply TextFacts.includes_app_r.
    to_join. apply TextFacts.includes_app_l.
    apply (TextFacts.includes_join _ _ (record_entry a)).
    - now apply in_map.
    - rewrite <- (ReaderFacts.append_nil_r (record_entry a)) at 1.
      apply TextFacts.includes_here. }
  unfold createExportStatements. split; [|split].
  - do 5 apply TextFacts.includes_app_r. now apply TextFacts.includes_app_l.
  - do 8 apply TextFacts.includes_app_r. now apply TextFacts.includes_app_l.
  - do 8 apply TextFacts.includes_app_r. now apply TextFacts.includes_app_l.
Qed.

Lemma every_path_has_literal_imports_witness :
  includes (createExportStatements "/docs" ["./a (1).book.svelte"; "./b.book.svelte"])
           (import_commented "./b.book.svelte") = true
  /\ includes (createExportStatements "/docs" ["./a (1).book.svelte"; "./b.book.svelte"])
              (import_plain "./b.book.svelte") = true
  /\ includes (createExportStatements "/docs" ["./a (1).book.svelte"; "./b.book.svelte"])
              (record_entry "./b.book.svelte") = true.
Proof.
  apply (every_path_has_literal_imports "/docs"
           ["./a (1).book.svelte"; "./b.book.svelte"] "./b.book.svelte").
  right. left. reflexivity.
Defined.

(** X15.  The module text determines its inputs: for bases and paths that
    can be written between quotes as they are, the reader gets back the
    base and the list (in order, in all three literals), so two different
    inputs never give the same text. *)
Theorem createExportStatements_injective
    (base base' : string) (files files' : list string) :
  base_safe base = true -> forallb path_safe files = true ->
  base_safe base' = true -> forallb path_safe files' = true ->
  createExportStatements base files = createExportStatements base' files' ->
  base = base' /\ files = files'.
Proof.
  intros Hb Hf Hb' Hf' E.
  pose proof (ReaderFacts.read_module_synthesized base files Hb Hf) as R.
  pose proof (ReaderFacts.read_module_synthesized base' files' Hb' Hf') as R'.
  rewrite E, R' in R. inversion R as [[E1 E2 E3 E4]].
  split; [reflexivity|].
  apply (f_equal (map fst)) in E4. rewrite !map_map in E4. cbn [fst] in E4.
  now rewrite !map_id in E4.
Qed.

Lemma createExportStatements_injective_witness :
  "/docs" = "/docs" /\ ["./a.book.svelte"] = ["./a.book.svelte"].
Proof.
  apply (createExportStatements_injective "/docs" "/docs"
           ["./a.book.svelte"] ["./a.book.svelte"]); reflexivity.
Defined.

Module SettlingFacts.

Import ModuleReader LoadStories ObjectFacts.

Lemma obj_set_comm {V : Type} (o : JsObject V) (k k' : string) (v v' : V) :
  k <> k' -> In k (keys o) -> In k' (keys o) ->
  obj_set (obj_set o k v) k' v' = obj_set (obj_set o k' v') k v.
Proof.
  intros N. induction o as [|[k0 v0] o IH]; cbn [keys map fst In]; [tauto|].
  intros Hk Hk'. cbn [obj_set].
  destruct (String.eqb k0 k) eqn:E1; destruct (String.eqb k0 k') eqn:E2;
    cbn [obj_set]; rewrite ?E1, ?E2; try reflexivity.
  - apply String.eqb_eq in E1, E2. congruence.
  - apply String.eqb_neq in E1, E2.
    f_equal. apply IH; [destruct Hk | destruct Hk']; first [congruence | assumption].
Qed.

Lemma keys_set_present {V : Type} (o : JsObject V) (k : string) (v : V) :
  In k (keys o) -> keys (obj_set o k v) = keys o.
Proof.
  induction o as [|[k0 v0] o IH]; cbn [keys map fst In obj_set]; [tauto|].
  intros H. destruct (String.eqb_spec k0 k) as [->|N]; [reflexivity|].
  cbn [map fst]. f_equal. apply IH. destruct H; first [congruence | assumption].
Qed.

Lemma on_settled_keys_eq (key : string) (loader : settled value)
    (record : JsObject value) :
  In key (keys record) -> keys (on_settled key loader record) = keys record.
Proof.
  intros H. destruct loader as [mod_|e]; cbn [on_settled]; [|reflexivity].
  destruct (read_member mod_ "default"); [now apply keys_set_present | reflexivity].
Qed.

Lemma on_settled_comm (k k' : string) (p p' : settled value) (r : JsObject value) :
  k <> k' -> In k (keys r) -> In k' (keys r) ->
  on_settled k' p' (on_settled k p r) = on_settled k p (on_settled k' p' r).
Proof.
  intros N Hk Hk'. destruct p as [mod_|e], p' as [mod'|e']; cbn [on_settled];
    try reflexivity.
  destruct (read_member mod_ "default"), (read_member mod' "default");
    try reflexivity.
  now apply obj_set_comm.
Qed.

Lemma settle_in_order_keys (l : list (string * settled value)) :
  forall r, (forall k, In k (map fst l) -> In k (keys r)) ->
            keys (settle_in_order l r) = keys r.
Proof.
  induction l as [|[k p] l IH]; intros r H; [reflexivity|].
  cbn [settle_in_order fold_left fst snd].
  fold (settle_in_order l (on_settled k p r)).
  assert (Hk : In k (keys r)) by (apply H; now left).
  rewrite IH; [now apply on_settled_keys_eq|].
  intros k' Hk'. rewrite on_settled_keys_eq by exact Hk. apply H. now right.
Qed.

(** Settling one loader first or last makes no difference. *)
Lemma settle_in_order_swap (l : list (string * settled value)) :
  forall (k : string) (p : settled value) (r : JsObject value),
    ~ In k (map fst l) -> In k (keys r) ->
    (forall k', In k' (map fst l) -> In k' (keys r)) ->
    settle_in_order l (on_settled k p r) = on_settled k p (settle_in_order l r).
Proof.
  induction l as [|[k0 p0] l IH]; intros k p r Hnot Hk Hsub; [reflexivity|].
  cbn [settle_in_order fold_left fst snd].
  fold (settle_in_order l (on_settled k0 p0 (on_settled k p r))).
  fold (settle_in_order l (on_settled k0 p0 r)).
  assert (N : k <> k0) by (intros ->; apply Hnot; now left).
  assert (Hk0 : In k0 (keys r)) by (apply Hsub; now left).
  rewrite (on_settled_comm k k0 p p0 r N Hk Hk0).
  apply IH.
  - intros H. apply Hnot. now right.
  - now rewrite on_settled_keys_eq.
  - intros k' Hk'. rewrite on_settled_keys_eq by exact Hk0. apply Hsub. now right.
Qed.

Lemma settle_in_order_app (l1 l2 : list (string * settled value)) (r : JsObject value) :
  settle_in_order (l1 ++ l2) r = settle_in_order l2 (settle_in_order l1 r).
Proof. apply fold_left_app. Qed.

(** Every order of settling ends in the record of the order of the entries. *)
Lemma settles_to_in_order (pending : list (string * settled value))
    (record record' : JsObject value) :
  settles_to pending record record' ->
  NoDup (map fst pending) ->
  (forall k, In k (map fst pending) -> In k (keys record)) ->
  record' = settle_in_order pending record.
Proof.
  induction 1 as [record | l1 key loader l2 record record' _ IH];
    intros Hnd Hsub; [reflexivity|].
  rewrite map_app in Hnd. cbn [map fst] in Hnd.
  pose proof (NoDup_remove_1 _ _ _ Hnd) as Hnd'.
  pose proof (NoDup_remove_2 _ _ _ Hnd) as Hkey.
  rewrite <- map_app in Hnd'.
  assert (Hin : In key (keys record)).
  { apply Hsub. rewrite map_app. apply in_app_iff. cbn. tauto. }
  assert (Hsub' : forall k, In k (map fst (l1 ++ l2)) -> In k (keys record)).
  { intros k Hk. apply Hsub. rewrite map_app in Hk |- *.
    apply in_app_iff in Hk. apply in_app_iff. cbn. tauto. }
  rewrite IH; [|exact Hnd'|].
  - rewrite !settle_in_order_app.
    cbn [settle_in_order fold_left fst snd].
    fold (settle_in_order l2 (on_settled key loader (settle_in_order l1 record))).
    f_equal. apply settle_in_order_swap.
    + intros H. apply Hkey. apply in_app_iff. now left.
    + exact Hin.
    + intros k Hk. apply Hsub'. rewrite map_app. apply in_app_iff. now left.
  - intros k Hk. rewrite on_settled_keys_eq by exact Hin. now apply Hsub'.
Qed.

(** The two literals of the synthesized [loadStories] have the same keys. *)
Lemma literals_agree (imports : string -> settled value) (base : string)
    (files : list string) :
  NoDup (keys (map_object imports (synthesized base files)))
  /\ NoDup (keys (record_object (synthesized base files)))
  /\ (forall k, In k (keys (map_object imports (synthesized base files)))
                <-> In k files /\ k <> "__proto__")
  /\ (forall k, In k (keys (record_object (synthesized base files)))
                <-> In k files /\ k <> "__proto__").
Proof.
  rewrite LoadStoriesFacts.map_object_synthesized,
          LoadStoriesFacts.record_object_synthesized.
  destruct (object_literal_keyed imports files) as (M1 & _ & M3 & _).
  destruct (object_literal_keyed (fun _ => VNull) files) as (R1 & _ & R3 & _).
  auto.
Qed.

End SettlingFacts.

(** X16.  The order in which the imports settle does not matter for the
    synthesized [loadStories]: every run returns the very mapping of the
    run in which they settle in the order of the list (same entries, same
    order of keys). *)
Theorem loadStories_order_independent
    (imports : string -> settled value) (base : string) (files : list string)
    (r : settled (JsObject value)) :
  loadStories_returns imports (synthesized base files) r ->
  loadStories_in_order imports (synthesized base files) = Some r.
Proof.
  intros H. inversion H as [record r' Hrun Hfin E]. clear H. subst r'.
  unfold loadStories_in_order. rewrite <- Hfin. f_equal. symmetry.
  unfold Object_entries in *.
  destruct (SettlingFacts.literals_agree imports base files) as (M1 & _ & M3 & R3).
  apply (SettlingFacts.settles_to_in_order _ _ _ Hrun M1).
  intros k Hk. apply R3. now apply M3.
Qed.

Lemma loadStories_order_independent_witness :
  loadStories_in_order
    (fun a => if String.eqb a "./a" then Rejected VUndefined
              else Fulfilled (VObject [("x", VNumber 1)]))
    (synthesized "" ["./a"; "./b"])
  = Some (Fulfilled [("./a", VNull); ("./b", VObject [("x", VNumber 1)])]).
Proof.
  apply (loadStories_order_independent _ "" ["./a"; "./b"]).
  apply (returns_record _ (synthesized "" ["./a"; "./b"])
           [("./a", VNull); ("./b", VObject [("x", VNumber 1)])]).
  - apply (settles_pick [("./a", Rejected VUndefined)] "./b"
             (Fulfilled (VObject [("x", VNumber 1)])) []).
    apply (settles_pick [] "./a" (Rejected VUndefined) []).
    apply settles_done.
  - reflexivity.
Defined.

(** X17.  For a base and paths that can be written between quotes as they
    are, no path being [__proto__] and none being a path [then] that gets a
    function as its value, the text reads as a module whose [loadStories]
    returns, and the mapping it returns has every listed path as a key
    exactly once and no other key, also when the list names a path twice;
    every value is [null] or what the callback stores for the module of
    that path. *)
Theorem loadStories_keys_exact
    (imports : string -> settled value) (base : string) (files : list string) :
  base_safe base = true ->
  forallb path_safe files = true ->
  ~ In "__proto__" files ->
  (In "then" files ->
   callable (story_value default_or_self (imports "then")) = false) ->
  exists m,
    read_module (createExportStatements base files) = Some m
    /\ (exists r, loadStories_returns imports m r)
    /\ forall r, loadStories_returns imports m r ->
         exists record,
           r = Fulfilled record
           /\ NoDup (keys record)
           /\ (forall k, In k (keys record) <-> In k files)
           /\ (forall k v, obj_get record k = Some v ->
                 v = story_value default_or_self (imports k)).
Proof.
  intros Hbase Hfiles Hproto Hthen.
  exists (synthesized base files).
  split; [now apply ReaderFacts.read_module_synthesized|]. split.
  { destruct (LoadStoriesFacts.loadStories_in_order_fulfils imports base files
                Hproto Hthen) as (record & E).
    exists (Fulfilled record). now apply LoadStoriesFacts.in_order_returns. }
  intros r H.
  destruct (SettlingFacts.literals_agree imports base files) as (M1 & R1 & M3 & R3).
  inversion H as [record r' Hrun Hfin E]. subst r'.
  exists record. split; [exact (LoadStoriesFacts.finish_some _ _ _ _ Hfin)|].
  destruct (LoadStoriesFacts.settled_record_filled imports base files record
              Hproto Hrun) as (Hval & Hin).
  unfold Object_entries in Hrun.
  assert (Hsub : forall k,
             In k (map fst (map_object imports (synthesized base files))) ->
             In k (keys (record_object (synthesized base files)))).
  { intros k Hk. apply R3. now apply M3. }
  pose proof (SettlingFacts.settles_to_in_order _ _ _ Hrun M1 Hsub) as Erec.
  assert (Hkeys : keys record = keys (record_object (synthesized base files))).
  { rewrite Erec. now apply SettlingFacts.settle_in_order_keys. }
  split; [now rewrite Hkeys|]. split; [exact Hin|].
  intros k v Hget.
  assert (Hk : In k files).
  { apply Hin. now apply (ObjectFacts.obj_get_in_keys _ _ v). }
  rewrite (Hval k Hk) in Hget. congruence.
Qed.

Lemma loadStories_keys_exact_witness :
  exists m,
    read_module (createExportStatements "" ["./a"; "./b"; "./a"]) = Some m
    /\ (exists r, loadStories_returns (fun _ => Rejected VUndefined) m r)
    /\ forall r, loadStories_returns (fun _ => Rejected VUndefined) m r ->
         exists record,
           r = Fulfilled record
           /\ NoDup (keys record)
           /\ (forall k, In k (keys record) <-> In k ["./a"; "./b"; "./a"])
           /\ (forall k v, obj_get record k = Some v ->
                 v = story_value default_or_self ((fun _ => Rejected VUndefined) k)).
Proof.
  apply (loadStories_keys_exact (fun _ => Rejected VUndefined) ""
           ["./a"; "./b"; "./a"]).
  - reflexivity.
  - reflexivity.
  - cbn. intros [E | [E | [E | []]]]; discriminate.
  - reflexivity.
Defined.

(* ================================================================== *)
(** * Further properties: the whole way, and the dev server *)
(* ================================================================== *)

Lemma dot_slash_safe (f : string) :
  path_safe f = true -> path_safe ("./" ++ f) = true.
Proof.
  unfold path_safe. intros H. apply andb_true_iff in H as [H1 H2].
  cbn [append literal_safe]. rewrite H1, H2. reflexivity.
Qed.

(** X18.  From [load] to the stories: when [load] lists the files and
    their paths and the base can be written between quotes as they are,
    the text it answers reads as a module for those paths, and its
    [loadStories] returns, on every run, a fulfilled mapping with an entry
    for every found file, [null] where the import rejected.  No found path
    can be the key [__proto__], since each starts with [./]. *)
Theorem load_module_loads_stories
    (options : option BookEmojiPluginOptions)
    (fg : string -> string -> settled (list FgEntry))
    (imports : string -> settled value)
    (st : Closure) (rc : ResolvedConfig) (found : list FgEntry) :
  root_unset (projectRoot st) = false ->
  config st = Some rc ->
  fg (glob_used st) (NodePath.normalize (root_or_empty st)) = Fulfilled found ->
  base_safe (base_or_empty (bookEmojiConfig st)) = true ->
  forallb (fun f => path_safe (path f)) found = true ->
  exists text m,
    fst (load options fg resolvedVirtualModuleId st) = Fulfilled (Some text)
    /\ read_module text = Some m
    /\ m_base m = base_or_empty (bookEmojiConfig st)
    /\ map fst (m_stories m) = map (fun f => "./" ++ path f) found
    /\ (exists r, loadStories_in_order imports m = Some r
                  /\ loadStories_returns imports m r)
    /\ (forall r, loadStories_returns imports m r ->
          exists record,
            r = Fulfilled record
            /\ forall f, In f found ->
                 obj_get record ("./" ++ path f)
                 = Some (story_value default_or_self (imports ("./" ++ path f)))).
Proof.
  intros Hroot Hcfg Hfg Hbase Hsafe.
  destruct (HookRuns.load_run options fg resolvedVirtualModuleId st) as (ls & E & _).
  rewrite String.eqb_refl in E. unfold load_answer in E.
  rewrite Hroot, Hfg, Hcfg in E.
  set (files := map (fun f => "./" ++ path f) found) in *.
  assert (Hfiles : forallb path_safe files = true).
  { unfold files. rewrite forallb_forall in *. intros a Ha.
    apply in_map_iff in Ha as (f & <- & Hf). apply dot_slash_safe. now apply Hsafe. }
  assert (Hproto : ~ In "__proto__" files).
  { unfold files. intros Ha. apply in_map_iff in Ha as (f & Ef & _). discriminate. }
  assert (Hthen : ~ In "then" files).
  { unfold files. intros Ha. apply in_map_iff in Ha as (f & Ef & _). discriminate. }
  exists (createExportStatements (base_or_empty (bookEmojiConfig st)) files),
         (synthesized (base_or_empty (bookEmojiConfig st)) files).
  split; [now rewrite E|].
  split; [now apply ReaderFacts.read_module_synthesized|].
  split; [reflexivity|].
  split; [unfold synthesized; cbn [m_stories]; rewrite map_map; apply map_id|].
  split.
  { destruct (LoadStoriesFacts.loadStories_in_order_fulfils imports
                (base_or_empty (bookEmojiConfig st)) files Hproto
                (fun Hi => match Hthen Hi with end))
      as (record & Eord).
    exists (Fulfilled record).
    split; [exact Eord | now apply LoadStoriesFacts.in_order_returns]. }
  intros r Hr.
  destruct (LoadStoriesFacts.loadStories_returns_filled imports _ files r Hproto Hr)
    as (record & Er & Hrec & _).
  exists record. split; [exact Er|].
  intros f Hf. apply Hrec. unfold files. now apply (in_map (fun f => "./" ++ path f)).
Qed.

Lemma load_module_loads_stories_witness :
  exists text m,
    fst (load None sample_fg resolvedVirtualModuleId sample_closure)
    = Fulfilled (Some text)
    /\ read_module text = Some m
    /\ m_base m = base_or_empty (bookEmojiConfig sample_closure)
    /\ map fst (m_stories m) = map (fun f => "./" ++ path f) sample_entries
    /\ (exists r, loadStories_in_order (fun _ => Rejected VUndefined) m = Some r
                  /\ loadStories_returns (fun _ => Rejected VUndefined) m r)
    /\ (forall r, loadStories_returns (fun _ => Rejected VUndefined) m r ->
          exists record,
            r = Fulfilled record
            /\ forall f, In f sample_entries ->
                 obj_get record ("./" ++ path f)
                 = Some (story_value default_or_self
                           ((fun _ => Rejected VUndefined) ("./" ++ path f)))).
Proof.
  apply (load_module_loads_stories None sample_fg (fun _ => Rejected VUndefined)
           sample_closure sample_config sample_entries); reflexivity.
Defined.

(** X19.  The [printUrls] that [configureServer] installs runs the
    original printer first and passes on its failure; after it, it writes
    at most one line; it writes none when [options.silent] is [true], when
    the server has no first local URL, or when the base is unset, empty or
    ["/"]; and with a local URL, a base, a parsable URL and [config] there
    it writes just the preview line for that URL with the base as path. *)
Theorem printUrls_adds_preview_line
    (options : option BookEmojiPluginOptions)
    (URL_new : string -> option Url) (URL_set_pathname : Url -> string -> Url)
    (_print : Terminal -> settled unit * Terminal)
    (resolvedUrls : option ResolvedServerUrls) (st : Closure) (t : Terminal) :
  let wrapped := printUrls options URL_new URL_set_pathname _print resolvedUrls st in
  (exists extra,
      snd (wrapped t) = (snd (_print t) ++ extra)%list /\ (List.length extra <= 1)%nat)
  /\ (forall e, fst (_print t) = Rejected e -> wrapped t = _print t)
  /\ (silent_or_false options = true
      \/ first_local_url resolvedUrls = None
      \/ first_local_url resolvedUrls = Some ""
      \/ preview_base (bookEmojiConfig st) = None ->
      snd (wrapped t) = snd (_print t)
      /\ (fst (_print t) = Fulfilled tt -> wrapped t = _print t))
  /\ (forall url b u c,
        fst (_print t) = Fulfilled tt ->
        silent_or_false options = false ->
        first_local_url resolvedUrls = Some url -> url <> "" ->
        preview_base (bookEmojiConfig st) = Some b ->
        URL_new url = Some u ->
        config st = Some c ->
        wrapped t
        = (Fulfilled tt,
           (snd (_print t) ++ [preview_line (URL_set_pathname u b)])%list)).
Proof.
  intros wrapped. unfold wrapped, printUrls.
  destruct (_print t) as [[[]|e] t1]; cbn [fst snd].
  - split; [|split; [|split]].
    + destruct (negb (silent_or_false options));
        [|exists []; rewrite app_nil_r; split; [reflexivity | cbn; lia]].
      destruct (first_local_url resolvedUrls) as [url|];
        [|exists []; rewrite app_nil_r; split; [reflexivity | cbn; lia]].
      destruct (negb (String.eqb url ""));
        [|exists []; rewrite app_nil_r; split; [reflexivity | cbn; lia]].
      destruct (preview_base (bookEmojiConfig st)) as [b|];
        [|exists []; rewrite app_nil_r; split; [reflexivity | cbn; lia]].
      destruct (URL_new url) as [u|];
        [|exists []; rewrite app_nil_r; split; [reflexivity | cbn; lia]].
      destruct (config st) as [c|];
        [|exists []; rewrite app_nil_r; split; [reflexivity | cbn; lia]].
      eexists. split; [reflexivity | cbn; lia].
    + intros e H. discriminate.
    + intros [H | [H | [H | H]]]; rewrite H; cbn [negb]; try (split; reflexivity).
      * destruct (negb (silent_or_false options)); split; reflexivity.
      * destruct (negb (silent_or_false options)); split; reflexivity.
      * destruct (negb (silent_or_false options)); [|split; reflexivity].
        destruct (first_local_url resolvedUrls) as [url|]; [|split; reflexivity].
        destruct (negb (String.eqb url "")); split; reflexivity.
    + intros url b u c _ Hs Hu Hne Hb HU Hc.
      rewrite Hs, Hu, Hb, HU, Hc. apply String.eqb_neq in Hne. rewrite Hne.
      reflexivity.
  - split; [|split; [|split]].
    + exists []. rewrite app_nil_r. split; [reflexivity | cbn; lia].
    + reflexivity.
    + intros _. split; [reflexivity | discriminate].
    + intros url b u c H. discriminate.
Qed.

(* ================================================================== *)
(** * Worked examples *)
(* ================================================================== *)

Example normalize_ex1 : NodePath.normalize "" = ".".
Proof. reflexivity. Qed.
Example normalize_ex2 :
  NodePath.normalize "./books/stories/**/*.book.svelte" = "books/stories/**/*.book.svelte".
Proof. vm_compute. reflexivity. Qed.
Example normalize_ex3 : NodePath.normalize "/a/b/../c/" = "/a/c/".
Proof. vm_compute. reflexivity. Qed.
Example normalize_ex4 : NodePath.normalize "a//b/./c/.." = "a/b".
Proof. vm_compute. reflexivity. Qed.
Example normalize_ex5 : NodePath.normalize "../../a/../b" = "../../b".
Proof. vm_compute. reflexivity. Qed.
Example normalize_ex6 : NodePath.normalize "/.." = "/".
Proof. vm_compute. reflexivity. Qed.
Example normalize_ex7 : NodePath.normalize "./" = "./".
Proof. vm_compute. reflexivity. Qed.
Example normalize_ex8 : NodePath.normalize "ab/../.." = "..".
Proof. vm_compute. reflexivity. Qed.
Example glob_ex1 : glob_normalize "./a(b)/x" = "a\(b\)/x".
Proof. vm_compute. reflexivity. Qed.

Example read_ex1 :
  ModuleReader.read_module (createExportStatements "/docs" ["./a.book.svelte"; "./b c.book.svelte"])
  = Some (ModuleReader.mkModuleText "/docs"
            [("./a.book.svelte", "./a.book.svelte"); ("./b c.book.svelte", "./b c.book.svelte")]
            [("./a.book.svelte", "./a.book.svelte"); ("./b c.book.svelte", "./b c.book.svelte")]
            [("./a.book.svelte", tt); ("./b c.book.svelte", tt)]).
Proof. vm_compute. reflexivity. Qed.
Example read_ex2 :
  ModuleReader.read_module (createExportStatements "" []) = Some (ModuleReader.mkModuleText "" [] [] []).
Proof. vm_compute. reflexivity. Qed.
